(** * AMD_CHATAPP: the socket relay of [src/lib/socket.js]

    A shallow embedding of the presence registries, the connection
    life cycle and the event handlers of [src/lib/socket.js], together
    with the room emits of the HTTP controllers that share its room-key
    derivation, and the properties of the relay stated over them.  The
    earlier relay of [routes/Expert.message.route.js], the direct emits
    of the HTTP controllers and the upload filter and [Range] handling
    of [controller/voice.controller.js] follow.

    Conventions of the embedding.
    - A JavaScript string is a [string]; one [ascii] stands for one
      UTF-16 code unit, so tokens are taken in the range of code units
      below 256 (hexadecimal store identifiers and transport socket ids
      are).
    - [userSocketMap] and [expertSocketMap] are plain objects used as
      maps.  They are embedded as tables of own properties, kept in
      insertion order, under the prototype every plain object has: a
      read of a key that is no own property gives the member of
      [Object.prototype] of that name when there is one, and an
      assignment to [__proto__] stores nothing.  [Object_keys]
      enumerates the own keys the way the language does (array-index
      keys first, ascending, then the other keys in insertion order).
    - Payloads are flat records of primitive values.  A number is an
      integer of magnitude below 10^21, where the language's conversion
      to a string is the plain decimal notation.
    - [io.emit] and [io.to(x).emit] are recorded as a list of emissions,
      in program order; the clock read by [new Date()] is an argument. *)

From Stdlib Require Import Bool List Arith ZArith Lia.
From Stdlib Require Import Strings.Ascii Strings.String Numbers.DecimalString.
From Stdlib Require Import Sorting.Permutation.
Import ListNotations.

Local Open Scope string_scope.
Local Open Scope list_scope.

(** ** Primitive values *)

Module Js.

(** What a client can put in a field of a payload. *)
Inductive value : Type :=
| VUndefined
| VNull
| VBool (b : bool)
| VNum (n : Z)
| VStr (s : string).

(** What the server puts in a field of an outbound payload: a value, or
    a [Date] object it created. *)
Inductive outvalue : Type :=
| Val (v : value)
| DateObj (ms : Z).

Definition string_of_Z (n : Z) : string :=
  NilZero.string_of_int (Z.to_int n).

(** [ToString], as applied by property access, [sort] and [join]. *)
Definition ToString (v : value) : string :=
  match v with
  | VUndefined => "undefined"
  | VNull => "null"
  | VBool true => "true"
  | VBool false => "false"
  | VNum n => string_of_Z n
  | VStr s => s
  end.

(** [ToBoolean]: what [||], [&&] and [if] test. *)
Definition truthy (v : value) : bool :=
  match v with
  | VUndefined | VNull => false
  | VBool b => b
  | VNum n => negb (Z.eqb n 0)
  | VStr s => negb (String.eqb s "")
  end.

(** [a || b] on client values with a server-made default. *)
Definition or_default (a : value) (d : outvalue) : outvalue :=
  if truthy a then Val a else d.

(** ** Arrays of values: the default [sort] and [join] *)

(** [SortCompare x y < 0] for the default comparator: [undefined] sorts
    last, everything else is compared through [ToString]. *)
Definition sort_lt (x y : value) : bool :=
  match x, y with
  | VUndefined, _ => false
  | _, VUndefined => true
  | _, _ => String.ltb (ToString x) (ToString y)
  end.

(** The sort is stable: an element goes before the first element that is
    not strictly smaller than it. *)
Fixpoint insert (x : value) (l : list value) : list value :=
  match l with
  | [] => [x]
  | y :: l' => if sort_lt y x then y :: insert x l' else x :: l
  end.

Fixpoint sort (l : list value) : list value :=
  match l with
  | [] => []
  | x :: l' => insert x (sort l')
  end.

(** An element of [join]: [undefined] and [null] give the empty string. *)
Definition join_elt (v : value) : string :=
  match v with
  | VUndefined | VNull => ""
  | _ => ToString v
  end.

Fixpoint join (sep : string) (l : list value) : string :=
  match l with
  | [] => ""
  | [v] => join_elt v
  | v :: l' => join_elt v ++ sep ++ join sep l'
  end.

End Js.

Import Js.

(** ** Plain objects used as maps *)

Module Obj.

(** The own properties of an object whose values are strings, in
    insertion order. *)
Definition obj : Type := list (string * string).

Definition empty : obj := [].

(** The own property [k], if the object has one. *)
Fixpoint own (k : string) (o : obj) : option string :=
  match o with
  | [] => None
  | (k', v) :: o' => if String.eqb k' k then Some v else own k o'
  end.

(** Writing an own property: an existing one keeps its place, a new one
    goes last. *)
Fixpoint put (k v : string) (o : obj) : obj :=
  match o with
  | [] => [(k, v)]
  | (k', v') :: o' =>
      if String.eqb k' k then (k, v) :: o' else (k', v') :: put k v o'
  end.

(** The properties every plain object inherits from [Object.prototype]:
    eleven functions and the accessor [__proto__]. *)
Definition inherited_names : list string :=
  ["constructor"; "__defineGetter__"; "__defineSetter__"; "hasOwnProperty";
   "__lookupGetter__"; "__lookupSetter__"; "isPrototypeOf";
   "propertyIsEnumerable"; "toString"; "valueOf"; "__proto__";
   "toLocaleString"].

Definition inherited (k : string) : bool :=
  existsb (String.eqb k) inherited_names.

(** What reading [o[k]] gives: the string of an own property, the
    member [k] of [Object.prototype] (a function, or the prototype
    itself for [__proto__]), or [undefined]. *)
Inductive result : Type :=
| Own (v : string)
| Inherited (name : string)
| Absent.

(** [Object.prototype[k]] read through an object. *)
Definition proto (k : string) : result :=
  if inherited k then Inherited k else Absent.

(** [o[k]]. *)
Definition get (k : string) (o : obj) : result :=
  match own k o with
  | Some v => Own v
  | None => proto k
  end.

(** [o[k] = v] for a string [v].  On an object without an own
    [__proto__] the assignment to that key runs the inherited setter,
    which ignores a string; every other key becomes or stays an own
    property. *)
Definition set (k v : string) (o : obj) : obj :=
  match own k o with
  | None => if String.eqb k "__proto__" then o else put k v o
  | Some _ => put k v o
  end.

(** [ToBoolean] of what a read gives. *)
Definition truthy_result (r : result) : bool :=
  match r with
  | Own v => negb (String.eqb v "")
  | Inherited _ => true
  | Absent => false
  end.

(** [delete o[k]]. *)
Definition delete (k : string) (o : obj) : obj :=
  filter (fun kv => negb (String.eqb (fst kv) k)) o.

Definition digit_of (c : ascii) : option N :=
  let n := N_of_ascii c in
  if (48 <=? n)%N && (n <=? 57)%N then Some (n - 48)%N else None.

Fixpoint parse_digits (acc : N) (s : string) : option N :=
  match s with
  | EmptyString => Some acc
  | String c s' =>
      match digit_of c with
      | Some d => parse_digits (acc * 10 + d)%N s'
      | None => None
      end
  end.

(** An array index is the canonical decimal notation of an integer
    from 0 to 2^32 - 2. *)
Definition array_index (s : string) : option N :=
  match s with
  | EmptyString => None
  | String c s' =>
      if Ascii.eqb c "0"%char
      then match s' with EmptyString => Some 0%N | _ => None end
      else match parse_digits 0 s with
           | Some n => if (n <=? 4294967294)%N then Some n else None
           | None => None
           end
  end.

Definition is_index (s : string) : bool :=
  match array_index s with Some _ => true | None => false end.

Definition index_of (s : string) : N :=
  match array_index s with Some n => n | None => 0%N end.

Fixpoint insert_index (k : string) (l : list string) : list string :=
  match l with
  | [] => [k]
  | k' :: l' =>
      if (index_of k' <? index_of k)%N then k' :: insert_index k l'
      else k :: l
  end.

Fixpoint sort_index (l : list string) : list string :=
  match l with
  | [] => []
  | k :: l' => insert_index k (sort_index l')
  end.

(** [Object.keys(o)]: array-index keys in ascending numeric order, then
    the other keys in insertion order. *)
Definition Object_keys (o : obj) : list string :=
  let ks := map fst o in
  sort_index (filter is_index ks)
    ++ filter (fun k => negb (is_index k)) ks.

(** [Object.keys(o).find((key) => o[key] === id)]. *)
Definition find_key (id : string) (o : obj) : option string :=
  find (fun key => match get key o with
                   | Own v => String.eqb v id
                   | _ => false
                   end) (Object_keys o).

(** The values held by the table. *)
Definition values (o : obj) : list string := map snd o.

End Obj.

Import Obj.

(** ** Payloads and effects *)

Definition payload : Type := list (string * value).

(** [data.name]: [undefined] when the field is absent. *)
Fixpoint field (name : string) (data : payload) : value :=
  match data with
  | [] => VUndefined
  | (k, v) :: data' => if String.eqb k name then v else field name data'
  end.

Inductive body : Type :=
| Keys (ks : list string)
| Object (fields : list (string * outvalue)).

(** A payload passed on as it came. *)
Definition forward (data : payload) : body :=
  Object (map (fun kv => (fst kv, Val (snd kv))) data).

Inductive effect : Type :=
| Broadcast (event : string) (b : body)          (* io.emit(event, b) *)
| EmitTo (room : string) (event : string) (b : body)
                                                 (* io.to(room).emit(event, b) *)
| Join (socket_id : string) (room : string)      (* socket.join(room) *)
| EmitToObject (name : string) (event : string) (b : body).
    (* io.to(x).emit(event, b) where x is the member [name] of
       Object.prototype: a room that no connection is in *)

(** What [io.to] is given: a string, or a member of
    [Object.prototype]. *)
Inductive target : Type :=
| Room (id : string)
| ProtoRoom (name : string).

Definition emit_to (t : target) (event : string) (b : body) : effect :=
  match t with
  | Room id => EmitTo id event b
  | ProtoRoom name => EmitToObject name event b
  end.

(** ** The relay *)

Record state : Type := mkState {
  userSocketMap : obj;      (* {userId: socketId} *)
  expertSocketMap : obj     (* {expertId: socketId} *)
}.

Definition initial : state := mkState Obj.empty Obj.empty.

Definition getReceiverSocketId (st : state) (userId : string) : Obj.result :=
  Obj.get userId (userSocketMap st).

Definition getExpertSocketId (st : state) (expertId : string) : Obj.result :=
  Obj.get expertId (expertSocketMap st).

(** [socket.handshake.query]: each parameter is a string or missing. *)
Record query : Type := mkQuery {
  q_userId : option string;
  q_expertId : option string
}.

(** [x && x !== "undefined"] on a query parameter. *)
Definition claimed (x : option string) : option string :=
  match x with
  | Some s =>
      if negb (String.eqb s "") && negb (String.eqb s "undefined")
      then Some s else None
  | None => None
  end.

(** [io.on("connection", ...)], up to the registration of the handlers. *)
Definition connection (st : state) (socket_id : string) (q : query)
  : state * list effect :=
  let userId := q_userId q in
  let expertId := q_expertId q in
  let '(users, out1) :=
    match claimed userId with
    | Some u =>
        let users := Obj.set u socket_id (userSocketMap st) in
        (users, [Broadcast "getOnlineUsers" (Keys (Object_keys users))])
    | None => (userSocketMap st, [])
    end in
  let '(experts, out2) :=
    match claimed expertId with
    | Some e =>
        let experts := Obj.set e socket_id (expertSocketMap st) in
        (experts, [Broadcast "getOnlineExperts" (Keys (Object_keys experts))])
    | None => (expertSocketMap st, [])
    end in
  (mkState users experts, out1 ++ out2).

Definition joinRoom (socket_id : string) (roomId : string) : list effect :=
  [Join socket_id roomId].

(** [a || b] on two reads of a registry. *)
Definition or_else (a b : Obj.result) : Obj.result :=
  if Obj.truthy_result a then a else b.

(** The test [if (id)] before [io.to(id)]: what [io.to] is given when
    the test passes. *)
Definition online (id : Obj.result) : option target :=
  match id with
  | Obj.Own s => if String.eqb s "" then None else Some (Room s)
  | Obj.Inherited name => Some (ProtoRoom name)
  | Obj.Absent => None
  end.

(** [userSocketMap[r] || expertSocketMap[r]] for a field value [r]. *)
Definition receiverSocketId (st : state) (r : value) : Obj.result :=
  or_else (Obj.get (ToString r) (userSocketMap st))
          (Obj.get (ToString r) (expertSocketMap st)).

(** [[x, y].sort().join("-")]: the room identifier of a pair. *)
Definition roomId (x y : value) : string :=
  join "-" (sort [x; y]).

(** *** User to expert: direct delivery *)

(** [socket.on("sendMessage", ...)].  [t_id] and [t_time] are the clock
    readings of the two [new Date()]. *)
Definition sendMessage (st : state) (t_id t_time : Z) (messageData : payload)
  : list effect :=
  match online (receiverSocketId st (field "receiverId" messageData)) with
  | Some id =>
      [emit_to id "newMessage" (Object
         [("_id", or_default (field "_id" messageData)
                     (Val (VStr (string_of_Z t_id))));
          ("senderId", Val (field "senderId" messageData));
          ("receiverId", Val (field "receiverId" messageData));
          ("text", Val (field "text" messageData));
          ("time", or_default (field "time" messageData) (DateObj t_time));
          ("isFile", or_default (field "isFile" messageData)
                       (Val (VBool false)));
          ("fileId", or_default (field "fileId" messageData) (Val VNull));
          ("isVoice", or_default (field "isVoice" messageData)
                        (Val (VBool false)))])]
  | None => []
  end.

(** [socket.on("messageEdited", ...)]. *)
Definition messageEdited (st : state) (updatedMessage : payload)
  : list effect :=
  match online (receiverSocketId st (field "receiverId" updatedMessage)) with
  | Some id => [emit_to id "messageEdited" (forward updatedMessage)]
  | None => []
  end.

(** [socket.on("messageDeleted", ...)]. *)
Definition messageDeleted (st : state) (data : payload) : list effect :=
  match online (receiverSocketId st (field "receiverId" data)) with
  | Some id =>
      [emit_to id "messageDeleted" (Object
         [("messageId", Val (field "messageId" data));
          ("fileId", Val (field "fileId" data))])]
  | None => []
  end.

(** [socket.on("allMessagesDeleted", ...)]. *)
Definition allMessagesDeleted (st : state) (data : payload) : list effect :=
  match online (receiverSocketId st (field "receiverId" data)) with
  | Some id =>
      [emit_to id "allMessagesDeleted" (Object
         [("senderId", Val (field "senderId" data));
          ("receiverId", Val (field "receiverId" data))])]
  | None => []
  end.

(** *** Expert to expert: room delivery *)

(** [socket.on("expertMessageEdited", ...)]. *)
Definition expertMessageEdited (updatedMessage : payload) : list effect :=
  let room := roomId (field "senderId" updatedMessage)
                     (field "receiverId" updatedMessage) in
  [EmitTo room "expertMessageEdited" (forward updatedMessage)].

(** [socket.on("expertMessageDeleted", ...)]. *)
Definition expertMessageDeleted (data : payload) : list effect :=
  let room := roomId (field "senderId" data) (field "receiverId" data) in
  [EmitTo room "expertMessageDeleted" (Object
     [("messageId", Val (field "messageId" data));
      ("senderId", Val (field "senderId" data));
      ("receiverId", Val (field "receiverId" data));
      ("fileId", or_default (field "fileId" data) (Val VNull))])].

(** [socket.on("allExpertMessagesDeleted", ...)]. *)
Definition allExpertMessagesDeleted (data : payload) : list effect :=
  let room := roomId (field "senderID" data) (field "receiverID" data) in
  [EmitTo room "allExpertMessagesDeleted" (Object
     [("senderID", Val (field "senderID" data));
      ("receiverID", Val (field "receiverID" data))])].

(** [socket.on("conversationDeleted", ...)]. *)
Definition conversationDeleted (data : payload) : list effect :=
  let room := roomId (field "senderId" data) (field "receiverId" data) in
  [EmitTo room "conversationDeleted" (forward data)].

(** *** Disconnect *)

(** A key found by [find] passes [if (key)] unless it is empty. *)
Definition found (k : option string) : option string :=
  match k with
  | Some s => if String.eqb s "" then None else Some s
  | None => None
  end.

(** [socket.on("disconnect", ...)]. *)
Definition disconnect (st : state) (socket_id : string)
  : state * list effect :=
  let '(users, out1) :=
    match found (find_key socket_id (userSocketMap st)) with
    | Some disconnectedUserId =>
        let users := Obj.delete disconnectedUserId (userSocketMap st) in
        (users, [Broadcast "getOnlineUsers" (Keys (Object_keys users))])
    | None => (userSocketMap st, [])
    end in
  let '(experts, out2) :=
    match found (find_key socket_id (expertSocketMap st)) with
    | Some disconnectedExpertId =>
        let experts := Obj.delete disconnectedExpertId (expertSocketMap st) in
        (experts, [Broadcast "getOnlineExperts" (Keys (Object_keys experts))])
    | None => (expertSocketMap st, [])
    end in
  (mkState users experts, out1 ++ out2).

(** ** The room emits of the HTTP controllers *)

(** [sendExpertMessage] of [controller/voice.controller.js], after the
    message is stored: [senderId] and [receiverId] are the results of
    [toString()].  The uploads of the expert voice and file controllers
    emit [newExpertMessage] to the room derived by the same expression. *)
Definition sendExpertMessage_emit (senderId receiverId : string)
    (responseMessage : list (string * outvalue)) : list effect :=
  let room := roomId (VStr senderId) (VStr receiverId) in
  [EmitTo room "newExpertMessage" (Object responseMessage)].

(** [deleteExpertMessage] of [controller/voice.controller.js], after the
    message is deleted. *)
Definition deleteExpertMessage_emit (messageID : value)
    (senderID receiverId : string) : list effect :=
  let room := roomId (VStr senderID) (VStr receiverId) in
  [EmitTo room "expertMessageDeleted" (Object
     [("messageID", Val messageID);
      ("senderID", Val (VStr senderID));
      ("receiverID", Val (VStr receiverId))])].

(** [editExpertMessage] of [controller/voice.controller.js], after the
    update: [updatedMessage] is the object built from the stored
    message, with its [senderId] and [receiverId] as strings. *)
Definition editExpertMessage_emit (senderId receiverId : string)
    (updatedMessage : list (string * outvalue)) : list effect :=
  let room := roomId (VStr senderId) (VStr receiverId) in
  [EmitTo room "expertMessageEdited" (Object updatedMessage)].

(** [deleteAllExpertMessages] of [controller/voice.controller.js], after
    a deletion that removed something. *)
Definition deleteAllExpertMessages_emit (senderID receiverID : string)
    (now : Z) : list effect :=
  let room := roomId (VStr senderID) (VStr receiverID) in
  [EmitTo room "allExpertMessagesDeleted" (Object
     [("senderID", Val (VStr senderID));
      ("receiverID", Val (VStr receiverID));
      ("deletedBy", Val (VStr senderID));
      ("deletedAt", DateObj now)])].

(** [deleteFileExpert]: the confirmation to the sender, after the room
    emits.  [expertId] is [expertIdObj.toString()]. *)
Definition deleteFileExpert_confirmation (st : state)
    (expertId fileId : string) (deleteType : value) (now : Z)
  : list effect :=
  match online (getReceiverSocketId st expertId) with
  | Some senderSocketId =>
      [emit_to senderSocketId "expertFileDeleteConfirmation" (Object
         [("messageId", Val (VStr fileId));
          ("status", Val (VStr "deleted"));
          ("deleteType", Val deleteType);
          ("timestamp", DateObj now)])]
  | None => []
  end.

(** ** Runs of the relay *)

Inductive event : Type :=
| Connection (socket_id : string) (q : query)
| JoinRoom (socket_id : string) (room : string)
| SendMessage (t_id t_time : Z) (messageData : payload)
| MessageEdited (updatedMessage : payload)
| MessageDeleted (data : payload)
| AllMessagesDeleted (data : payload)
| ExpertMessageEdited (updatedMessage : payload)
| ExpertMessageDeleted (data : payload)
| AllExpertMessagesDeleted (data : payload)
| ConversationDeleted (data : payload)
| Disconnect (socket_id : string).

Definition step (st : state) (ev : event) : state * list effect :=
  match ev with
  | Connection id q => connection st id q
  | JoinRoom id room => (st, joinRoom id room)
  | SendMessage t1 t2 d => (st, sendMessage st t1 t2 d)
  | MessageEdited d => (st, messageEdited st d)
  | MessageDeleted d => (st, messageDeleted st d)
  | AllMessagesDeleted d => (st, allMessagesDeleted st d)
  | ExpertMessageEdited d => (st, expertMessageEdited d)
  | ExpertMessageDeleted d => (st, expertMessageDeleted d)
  | AllExpertMessagesDeleted d => (st, allExpertMessagesDeleted d)
  | ConversationDeleted d => (st, conversationDeleted d)
  | Disconnect id => disconnect st id
  end.

Fixpoint run (st : state) (tr : list event) : state :=
  match tr with
  | [] => st
  | ev :: tr' => run (fst (step st ev)) tr'
  end.

(** The socket ids of the connections of a run. *)
Fixpoint connections (tr : list event) : list string :=
  match tr with
  | [] => []
  | Connection id _ :: tr' => id :: connections tr'
  | _ :: tr' => connections tr'
  end.

(** The transport gives every connection a socket id of its own, which
    is not empty. *)
Definition transport_ids (tr : list event) : Prop :=
  NoDup (connections tr) /\ ~ In "" (connections tr).

(** The states the relay goes through, started with empty registries. *)
Definition reachable (st : state) : Prop :=
  exists tr, transport_ids tr /\ st = run initial tr.

(** What the statements below observe of a list of effects. *)

(** The rooms (or socket ids) addressed by [io.to(x).emit] with a
    string [x]. *)
Fixpoint targets (out : list effect) : list string :=
  match out with
  | [] => []
  | EmitTo room _ _ :: out' => room :: targets out'
  | _ :: out' => targets out'
  end.

(** The bodies sent to every connection under an event name. *)
Fixpoint broadcasts (name : string) (out : list effect) : list body :=
  match out with
  | [] => []
  | Broadcast ev b :: out' =>
      if String.eqb ev name then b :: broadcasts name out'
      else broadcasts name out'
  | _ :: out' => broadcasts name out'
  end.

(** The bodies delivered by [io.to(x).emit] to the room of a string
    [x]. *)
Fixpoint delivered (out : list effect) : list body :=
  match out with
  | [] => []
  | EmitTo _ _ b :: out' => b :: delivered out'
  | _ :: out' => delivered out'
  end.

(** A field of an outbound object, and its field names. *)
Fixpoint ofield (name : string) (fs : list (string * outvalue))
  : option outvalue :=
  match fs with
  | [] => None
  | (k, v) :: fs' => if String.eqb k name then Some v else ofield name fs'
  end.

Definition field_names (b : body) : list string :=
  match b with
  | Keys _ => []
  | Object fs => map fst fs
  end.

(** The string of an [ObjectId]: 24 hexadecimal digits in lower case. *)
Definition is_hex (c : ascii) : bool :=
  let n := N_of_ascii c in
  ((48 <=? n)%N && (n <=? 57)%N) || ((97 <=? n)%N && (n <=? 102)%N).

Fixpoint all_hex (s : string) : bool :=
  match s with
  | EmptyString => true
  | String c s' => is_hex c && all_hex s'
  end.

Definition is_object_id (s : string) : bool :=
  Nat.eqb (String.length s) 24 && all_hex s.

(** A handshake parameter that makes no claim. *)
Definition absent (x : option string) : Prop :=
  x = None \/ x = Some "" \/ x = Some "undefined".

(** A token without the separator of the room identifiers. *)
Fixpoint separator_free (s : string) : bool :=
  match s with
  | EmptyString => true
  | String c s' => negb (Ascii.eqb c "-"%char) && separator_free s'
  end.

(** The registries of a state the relay can be in: keys are claims the
    handshake accepts, each held once; socket ids are not empty and no
    socket id is held by two keys of one registry. *)
Definition table_ok (o : obj) : Prop :=
  NoDup (map fst o) /\ ~ In "" (map fst o)
  /\ NoDup (values o) /\ ~ In "" (values o).

Definition inv (st : state) : Prop :=
  table_ok (userSocketMap st) /\ table_ok (expertSocketMap st).

(** The two identity spaces, and the registry, the lookup helper, the
    handshake parameter and the snapshot event of each. *)
Inductive space : Type := User | Expert.

Definition registry (sp : space) (st : state) : obj :=
  match sp with
  | User => userSocketMap st
  | Expert => expertSocketMap st
  end.

Definition lookup (sp : space) (st : state) (i : string) : Obj.result :=
  match sp with
  | User => getReceiverSocketId st i
  | Expert => getExpertSocketId st i
  end.

Definition claim_of (sp : space) (q : query) : option string :=
  match sp with
  | User => q_userId q
  | Expert => q_expertId q
  end.

Definition snapshot_event (sp : space) : string :=
  match sp with
  | User => "getOnlineUsers"
  | Expert => "getOnlineExperts"
  end.

(** Registries in which the placeholder of the handshake is no key. *)
Definition no_placeholder (st : state) : Prop :=
  ~ In "undefined" (map fst (userSocketMap st))
  /\ ~ In "undefined" (map fst (expertSocketMap st)).

(** ** The earlier relay of [routes/Expert.message.route.js]

    The registries, the lookup helpers, the four handlers of the direct
    channel and the disconnect handler have the text of
    [lib/socket.js]; the handshake and the expert channel differ. *)

Module Legacy.

(** [if (userId)] on a query parameter. *)
Definition claimed (x : option string) : option string :=
  match x with
  | Some s => if String.eqb s "" then None else Some s
  | None => None
  end.

Definition connection (st : state) (socket_id : string) (q : query)
  : state * list effect :=
  let userId := q_userId q in
  let expertId := q_expertId q in
  let '(users, out1) :=
    match claimed userId with
    | Some u =>
        let users := Obj.set u socket_id (userSocketMap st) in
        (users, [Broadcast "getOnlineUsers" (Keys (Object_keys users))])
    | None => (userSocketMap st, [])
    end in
  let '(experts, out2) :=
    match claimed expertId with
    | Some e =>
        let experts := Obj.set e socket_id (expertSocketMap st) in
        (experts, [Broadcast "getOnlineExperts" (Keys (Object_keys experts))])
    | None => (expertSocketMap st, [])
    end in
  (mkState users experts, out1 ++ out2).

(** [expertSocketMap[r]] for a field value [r], under [if (id)]. *)
Definition expertReceiver (st : state) (r : value) : option target :=
  online (Obj.get (ToString r) (expertSocketMap st)).


(** [socket.on("expertMessageEdited", ...)]. *)
Definition expertMessageEdited (st : state) (updatedMessage : payload)
  : list effect :=
  match expertReceiver st (field "receiverId" updatedMessage) with
  | Some id => [emit_to id "expertMessageEdited" (forward updatedMessage)]
  | None => []
  end.

(** [socket.on("expertMessageDeleted", ...)]: the lookup is under
    [if (receiverId)]. *)
Definition expertMessageDeleted (st : state) (data : payload) : list effect :=
  let receiverId := field "receiverId" data in
  if truthy receiverId then
    match expertReceiver st receiverId with
    | Some id =>
        [emit_to id "expertMessageDeleted" (Object
           [("messageId", Val (field "messageId" data));
            ("senderId", Val (field "senderId" data));
            ("receiverId", Val (field "receiverId" data));
            ("fileId", or_default (field "fileId" data) (Val VNull))])]
    | None => []
    end
  else [].

(** [socket.on("allExpertMessagesDeleted", ...)]: the lookup reads
    [data.receiverId], the payload [data.senderID] and
    [data.receiverID]. *)
Definition allExpertMessagesDeleted (st : state) (data : payload)
  : list effect :=
  match expertReceiver st (field "receiverId" data) with
  | Some id =>
      [emit_to id "allExpertMessagesDeleted" (Object
         [("senderID", Val (field "senderID" data));
          ("receiverID", Val (field "receiverID" data))])]
  | None => []
  end.

(** [socket.on("conversationDeleted", ...)]. *)
Definition conversationDeleted (st : state) (data : payload) : list effect :=
  match expertReceiver st (field "receiverId" data) with
  | Some id => [emit_to id "conversationDeleted" (forward data)]
  | None => []
  end.

End Legacy.

(** ** The direct emits of the HTTP controllers

    Each controller resolves the connection with [getReceiverSocketId]
    once the store has been updated. *)

Module Http.

(** [io.to(id).emit(event, b)] under [if (id)]. *)
Definition emit_if_online (id : Obj.result) (event : string)
    (fields : list (string * outvalue)) : list effect :=
  match online id with
  | Some socket_id => [emit_to socket_id event (Object fields)]
  | None => []
  end.

(** [sendMessage] of the message controller, and [uploadVoiceMessage]
    of [controller/voice.controller.js]: [receiverId] is [req.params.id]. *)
Definition sendMessage_emit (st : state) (receiverId : string)
    (responseMessage : list (string * outvalue)) : list effect :=
  emit_if_online (getReceiverSocketId st receiverId) "newMessage"
    responseMessage.

(** [deleteOneMessage] of the message controller: [receiverId] and
    [senderID] are results of [toString()]. *)
Definition deleteOneMessage_emit (st : state) (receiverId : string)
    (messageID : value) (senderID : string) : list effect :=
  emit_if_online (getReceiverSocketId st receiverId) "messageDeleted"
    [("messageID", Val messageID); ("senderID", Val (VStr senderID))].

(** [deleteVoiceMessage] of [controller/voice.controller.js]. *)
Definition deleteVoiceMessage_emit (st : state) (receiverId : string)
    (messageId : value) (senderID : string) (voiceId : value)
  : list effect :=
  emit_if_online (getReceiverSocketId st receiverId) "messageDeleted"
    [("messageID", Val messageId); ("senderID", Val (VStr senderID));
     ("isVoice", Val (VBool true)); ("voiceId", Val voiceId)].

(** [deleteAllMessage] of the message controller: [senderID] and
    [reciverID] are the strings of the request body. *)
Definition deleteAllMessage_emit (st : state) (senderID reciverID : string)
  : list effect :=
  emit_if_online (getReceiverSocketId st reciverID) "allMessagesDeleted"
    [("senderID", Val (VStr senderID)); ("reciverID", Val (VStr reciverID))].

(** [editMessage] of the message controller: one emit to the sender,
    one to the receiver. *)
Definition editMessage_emit (st : state) (senderId receiverId : string)
    (updatedMessage : list (string * outvalue)) : list effect :=
  emit_if_online (getReceiverSocketId st senderId) "messageEdited"
    updatedMessage
  ++ emit_if_online (getReceiverSocketId st receiverId) "messageEdited"
       updatedMessage.

(** [a === b] on primitive values. *)
Definition strict_eq (a b : value) : bool :=
  match a, b with
  | VUndefined, VUndefined => true
  | VNull, VNull => true
  | VBool x, VBool y => Bool.eqb x y
  | VNum x, VNum y => Z.eqb x y
  | VStr x, VStr y => String.eqb x y
  | _, _ => false
  end.

(** The failure test of [deleteFileExpert] on the result of the store:
    [deletionResult.deletedCount === 0 &&
     deletionResult.modifiedCount === 0]. *)
Definition deletion_failed (deletionResult : payload) : bool :=
  strict_eq (field "deletedCount" deletionResult) (VNum 0)
  && strict_eq (field "modifiedCount" deletionResult) (VNum 0).

End Http.

(** ** Voice uploads and streaming, [controller/voice.controller.js] *)

Module Voice.

Definition allowedTypes : list string :=
  ["audio/mpeg"; "audio/mp4"; "audio/webm"; "audio/ogg"; "audio/wav";
   "audio/x-wav"; "audio/aac"; "audio/x-m4a"; "audio/basic";
   "audio/vnd.wave"; "audio/*"].

(** [fileFilter]: [true] when the upload is accepted. *)
Definition fileFilter (mimetype : string) : bool :=
  existsb (String.eqb mimetype) allowedTypes
  || String.prefix "audio/" mimetype.

(** White space that [parseInt] skips, among the code units below 256. *)
Definition is_space (c : ascii) : bool :=
  let n := N_of_ascii c in
  ((9 <=? n)%N && (n <=? 13)%N) || (n =? 32)%N || (n =? 160)%N.

Fixpoint skip_spaces (s : string) : string :=
  match s with
  | EmptyString => EmptyString
  | String c s' => if is_space c then skip_spaces s' else s
  end.

(** The value of the longest prefix of decimal digits, [None] when
    there is no digit. *)
Fixpoint digits (acc : option Z) (s : string) : option Z :=
  match s with
  | EmptyString => acc
  | String c s' =>
      match Obj.digit_of c with
      | Some d =>
          digits (Some (10 * match acc with Some a => a | None => 0 end
                        + Z.of_N d)%Z) s'
      | None => acc
      end
  end.

(** [parseInt(s, 10)], [None] for [NaN].  The value is the exact
    integer; the language rounds an integer beyond 2^53, which changes
    none of the comparisons with the size of a file below 2^53 bytes
    that [bounds_of_parts] makes. *)
Definition parseInt (s : string) : option Z :=
  match skip_spaces s with
  | String "-" s' => option_map Z.opp (digits None s')
  | String "+" s' => digits None s'
  | s' => digits None s'
  end.

(** [s.replace(/bytes=/, "")]: the first occurrence is removed. *)
Fixpoint remove_bytes (s : string) : string :=
  if String.prefix "bytes=" s then String.substring 6 (String.length s - 6) s
  else match s with
       | EmptyString => EmptyString
       | String c s' => String c (remove_bytes s')
       end.

(** [s.split("-")]. *)
Fixpoint split (s : string) : list string :=
  match s with
  | EmptyString => [EmptyString]
  | String c s' =>
      if Ascii.eqb c "-" then EmptyString :: split s'
      else match split s' with
           | p :: ps => String c p :: ps
           | [] => [String c EmptyString]
           end
  end.

(** The [start] and [end] of [streamVoiceMessage] from the parts of the
    header. *)
Definition bounds_of_parts (fileSize : Z) (parts : list string) : Z * Z :=
  let start :=
    match parseInt (nth 0 parts "") with
    | Some n => n
    | None => 0%Z                      (* isNaN(start) *)
    end in
  let start := Z.max 0 (Z.min start (fileSize - 1)) in
  let end_ :=
    match nth_error parts 1 with
    | Some p =>
        if String.eqb p "" then Some (fileSize - 1)%Z else parseInt p
    | None => Some (fileSize - 1)%Z
    end in
  let end_ :=
    match end_ with
    | Some e => if (fileSize <=? e)%Z then (fileSize - 1)%Z else e
    | None => (fileSize - 1)%Z         (* isNaN(end) *)
    end in
  let end_ := Z.max start end_ in
  (start, end_).

Definition range_bounds (fileSize : Z) (range : string) : Z * Z :=
  bounds_of_parts fileSize (split (remove_bytes range)).

(** What [streamVoiceMessage] answers once the file is found: the
    status, the [Content-Length] and, for a range request, the
    [start] and [end] of [Content-Range] and of the stream. *)
Record response : Type := mkResponse {
  status : Z;
  content_length : Z;
  content_range : option (Z * Z)
}.

Definition stream (fileSize : Z) (range : option string) : response :=
  match range with
  | Some r =>
      if String.eqb r "" then mkResponse 200 fileSize None
      else
        let '(start, end_) := range_bounds fileSize r in
        mkResponse 206 (end_ - start + 1) (Some (start, end_))
  | None => mkResponse 200 fileSize None
  end.

End Voice.

(** * Properties *)

(** ** Object tables *)

Section ObjFacts.

Variable o : obj.

Lemma get_set_same k v : Obj.own k (Obj.put k v o) = Some v.
Proof.
  induction o as [|[k' v'] o' IH]; simpl.
  - now rewrite String.eqb_refl.
  - destruct (String.eqb_spec k' k); simpl.
    + now rewrite String.eqb_refl.
    + destruct (String.eqb_spec k' k); [contradiction | exact IH].
Qed.

Lemma get_set_other k k' v :
  k <> k' -> Obj.own k' (Obj.put k v o) = Obj.own k' o.
Proof.
  intros Hne. induction o as [|[k0 v0] o' IH]; simpl.
  - destruct (String.eqb_spec k k'); [contradiction | reflexivity].
  - destruct (String.eqb_spec k0 k) as [->|Hk]; simpl.
    + destruct (String.eqb_spec k k'); [contradiction | reflexivity].
    + destruct (String.eqb_spec k0 k'); [reflexivity | exact IH].
Qed.

Lemma get_delete_same k : Obj.own k (Obj.delete k o) = None.
Proof.
  unfold Obj.delete. induction o as [|[k0 v0] o' IH]; simpl; [reflexivity|].
  destruct (String.eqb_spec k0 k) as [->|Hk]; simpl; [exact IH|].
  destruct (String.eqb_spec k0 k); [contradiction | exact IH].
Qed.

Lemma get_delete_other k k' :
  k <> k' -> Obj.own k' (Obj.delete k o) = Obj.own k' o.
Proof.
  intros Hne. unfold Obj.delete.
  induction o as [|[k0 v0] o' IH]; simpl; [reflexivity|].
  destruct (String.eqb_spec k0 k) as [->|Hk]; simpl.
  - destruct (String.eqb_spec k k'); [contradiction | exact IH].
  - destruct (String.eqb_spec k0 k'); [reflexivity | exact IH].
Qed.

Lemma get_Some_In k v : Obj.own k o = Some v -> In (k, v) o.
Proof.
  induction o as [|[k0 v0] o' IH]; simpl; [discriminate|].
  destruct (String.eqb_spec k0 k) as [->|Hk]; intros H.
  - injection H as ->. now left.
  - right. now apply IH.
Qed.

Lemma get_None_notin k : Obj.own k o = None -> ~ In k (map fst o).
Proof.
  induction o as [|[k0 v0] o' IH]; simpl; [tauto|].
  destruct (String.eqb_spec k0 k) as [->|Hk]; [discriminate|].
  intros H [E|Hin]; [contradiction | now apply IH].
Qed.

Lemma In_get k : In k (map fst o) -> exists v, Obj.own k o = Some v.
Proof.
  intros Hin. destruct (Obj.own k o) as [v|] eqn:E; [now exists v|].
  now apply get_None_notin in E.
Qed.

End ObjFacts.

(** [Object.keys] lists the own keys, each as often as the table has it. *)

Lemma insert_index_perm k l : Permutation (Obj.insert_index k l) (k :: l).
Proof.
  induction l as [|k' l IH]; simpl; [apply Permutation_refl|].
  destruct (Obj.index_of k' <? Obj.index_of k)%N.
  - eapply perm_trans; [apply perm_skip, IH | apply perm_swap].
  - apply Permutation_refl.
Qed.

Lemma sort_index_perm l : Permutation (Obj.sort_index l) l.
Proof.
  induction l as [|k l IH]; simpl; [constructor|].
  eapply perm_trans; [apply insert_index_perm | now apply perm_skip].
Qed.

Lemma filter_split_perm {A} (f : A -> bool) (l : list A) :
  Permutation (filter f l ++ filter (fun x => negb (f x)) l) l.
Proof.
  induction l as [|a l IH]; simpl; [constructor|].
  destruct (f a); simpl.
  - now apply perm_skip.
  - apply Permutation_sym.
    eapply perm_trans; [apply perm_skip, Permutation_sym, IH|].
    apply Permutation_middle.
Qed.

Lemma Object_keys_perm o : Permutation (Object_keys o) (map fst o).
Proof.
  unfold Object_keys.
  eapply perm_trans; [|apply (filter_split_perm Obj.is_index)].
  apply Permutation_app_tail, sort_index_perm.
Qed.

Lemma Object_keys_In o k : In k (Object_keys o) <-> In k (map fst o).
Proof.
  split; apply Permutation_in;
    [apply Object_keys_perm | apply Permutation_sym, Object_keys_perm].
Qed.

Lemma find_key_Some o id k :
  Obj.find_key id o = Some k -> Obj.own k o = Some id.
Proof.
  unfold Obj.find_key, Obj.get. intros H. apply find_some in H as [_ H].
  destruct (Obj.own k o) as [v|].
  - apply String.eqb_eq in H. now subst.
  - unfold Obj.proto in H. destruct (Obj.inherited k); discriminate.
Qed.

Lemma find_key_None o id :
  Obj.find_key id o = None -> forall k, Obj.own k o <> Some id.
Proof.
  unfold Obj.find_key, Obj.get. intros H k Hk.
  pose proof (find_none _ _ H k) as Hn. simpl in Hn.
  rewrite Hk, String.eqb_refl in Hn.
  assert (In k (Object_keys o)); [|now discriminate Hn].
  apply Object_keys_In. apply get_Some_In in Hk.
  now apply (in_map fst) in Hk.
Qed.

Lemma find_key_held o id k :
  Obj.own k o = Some id -> exists k', Obj.find_key id o = Some k'.
Proof.
  intros Hk. destruct (Obj.find_key id o) as [k'|] eqn:E; [now exists k'|].
  now apply (find_key_None _ _ E) in Hk.
Qed.

(** Reads and assignments in terms of the own properties. *)

Lemma get_notin o k : ~ In k (map fst o) -> Obj.own k o = None.
Proof.
  intros Hn. destruct (Obj.own k o) as [v|] eqn:E; [|reflexivity].
  apply get_Some_In in E. now apply (in_map fst) in E.
Qed.

Lemma get_own o k v : Obj.get k o = Obj.Own v <-> Obj.own k o = Some v.
Proof.
  unfold Obj.get, Obj.proto. destruct (Obj.own k o) as [w|].
  - split; intros H; injection H as ->; reflexivity.
  - destruct (Obj.inherited k); split; discriminate.
Qed.

Lemma get_not_own o k : Obj.own k o = None -> Obj.get k o = Obj.proto k.
Proof. unfold Obj.get. now intros ->. Qed.

Lemma get_absent o k : Obj.get k o = Obj.Absent -> Obj.own k o = None.
Proof.
  unfold Obj.get. destruct (Obj.own k o); [discriminate | reflexivity].
Qed.

Lemma set_put o k v : k <> "__proto__" -> Obj.set k v o = Obj.put k v o.
Proof.
  intros Hk. unfold Obj.set. destruct (Obj.own k o); [reflexivity|].
  destruct (String.eqb_spec k "__proto__"); [contradiction | reflexivity].
Qed.

Lemma set_cases o k v : Obj.set k v o = o \/ Obj.set k v o = Obj.put k v o.
Proof.
  unfold Obj.set. destruct (Obj.own k o); [now right|].
  destruct (String.eqb k "__proto__"); [now left | now right].
Qed.

Lemma set_proto o v :
  Obj.own "__proto__" o = None -> Obj.set "__proto__" v o = o.
Proof. unfold Obj.set. now intros ->. Qed.

(** Keys and values after an assignment and after a [delete]. *)

Lemma keys_set o k v k' :
  In k' (map fst (Obj.put k v o)) <-> k' = k \/ In k' (map fst o).
Proof.
  induction o as [|[k0 v0] o IH]; simpl.
  - intuition.
  - destruct (String.eqb_spec k0 k) as [->|Hk]; simpl; [intuition|].
    rewrite IH. intuition.
Qed.

Lemma keys_set_NoDup o k v :
  NoDup (map fst o) -> NoDup (map fst (Obj.put k v o)).
Proof.
  induction o as [|[k0 v0] o IH]; simpl; intros H.
  - repeat constructor. intros [].
  - inversion H as [|? ? Hn Hd]; subst.
    destruct (String.eqb_spec k0 k) as [->|Hk]; simpl.
    + now constructor.
    + constructor; [|now apply IH].
      rewrite keys_set. intros [E|Hin]; [now subst | contradiction].
Qed.

Lemma values_set o k v x :
  In x (Obj.values (Obj.put k v o)) -> x = v \/ In x (Obj.values o).
Proof.
  unfold Obj.values. induction o as [|[k0 v0] o IH]; simpl.
  - intuition.
  - destruct (String.eqb_spec k0 k) as [->|Hk]; simpl; intuition.
Qed.

Lemma values_set_NoDup o k v :
  NoDup (Obj.values o) -> ~ In v (Obj.values o) ->
  NoDup (Obj.values (Obj.put k v o)).
Proof.
  unfold Obj.values. induction o as [|[k0 v0] o IH]; simpl; intros H Hv.
  - repeat constructor. intros [].
  - inversion H as [|? ? Hn Hd]; subst.
    destruct (String.eqb_spec k0 k) as [->|Hk]; simpl.
    + constructor; [tauto | assumption].
    + constructor; [|apply IH; tauto].
      intros Hin. apply values_set in Hin as [E|Hin]; [subst; tauto | tauto].
Qed.

Lemma keys_delete o k k' :
  In k' (map fst (Obj.delete k o)) <-> In k' (map fst o) /\ k' <> k.
Proof.
  unfold Obj.delete. induction o as [|[k0 v0] o IH]; simpl; [tauto|].
  destruct (String.eqb_spec k0 k) as [->|Hk]; simpl.
  - rewrite IH. intuition congruence.
  - rewrite IH. intuition congruence.
Qed.

Lemma keys_delete_NoDup o k :
  NoDup (map fst o) -> NoDup (map fst (Obj.delete k o)).
Proof.
  induction o as [|[k0 v0] o IH]; simpl; intros H; [constructor|].
  inversion H as [|? ? Hn Hd]; subst.
  destruct (String.eqb_spec k0 k) as [->|Hk]; simpl; [now apply IH|].
  constructor; [|now apply IH].
  fold (Obj.delete k o). rewrite keys_delete. tauto.
Qed.

Lemma values_delete o k x :
  In x (Obj.values (Obj.delete k o)) -> In x (Obj.values o).
Proof.
  unfold Obj.values, Obj.delete.
  induction o as [|[k0 v0] o IH]; simpl; [tauto|].
  destruct (String.eqb_spec k0 k) as [->|Hk]; simpl; intuition.
Qed.

Lemma values_delete_NoDup o k :
  NoDup (Obj.values o) -> NoDup (Obj.values (Obj.delete k o)).
Proof.
  induction o as [|[k0 v0] o IH]; simpl; intros H; [constructor|].
  inversion H as [|? ? Hn Hd]; subst.
  destruct (String.eqb_spec k0 k) as [->|Hk]; simpl; [now apply IH|].
  constructor; [|now apply IH].
  intros Hin. now apply values_delete in Hin.
Qed.

(** A [delete] of a key the table has changes the table. *)
Lemma delete_changes o k v :
  Obj.own k o = Some v -> Obj.delete k o <> o.
Proof.
  intros Hk E. pose proof (get_delete_same o k) as Hd.
  rewrite E, Hk in Hd. discriminate.
Qed.

(** In a table where no socket id is held twice, the key of a socket id
    is determined. *)
Lemma held_once o k k' id :
  NoDup (Obj.values o) ->
  Obj.own k o = Some id -> Obj.own k' o = Some id -> k = k'.
Proof.
  intros Hnd Hk Hk'. apply get_Some_In in Hk, Hk'.
  unfold Obj.values in Hnd.
  induction o as [|[k0 v0] o IH]; simpl in *; [contradiction|].
  inversion Hnd as [|? ? Hn Hd]; subst.
  destruct Hk as [Ek|Hk], Hk' as [Ek'|Hk'].
  - congruence.
  - injection Ek as -> ->. apply (in_map snd) in Hk'. contradiction.
  - injection Ek' as -> ->. apply (in_map snd) in Hk. contradiction.
  - now apply IH.
Qed.

(** ** The registries along a run *)

Lemma claimed_Some x s :
  claimed x = Some s <-> x = Some s /\ s <> "" /\ s <> "undefined".
Proof.
  unfold claimed. destruct x as [t|]; [|intuition discriminate].
  destruct (String.eqb_spec t ""), (String.eqb_spec t "undefined"); simpl;
    split; intros H; try discriminate;
    try (injection H as <-; now auto);
    destruct H as (H & ? & ?); injection H as <-; congruence.
Qed.

Lemma claimed_None x : claimed x = None <-> absent x.
Proof.
  unfold claimed, absent. destruct x as [t|]; [|intuition].
  destruct (String.eqb_spec t ""), (String.eqb_spec t "undefined"); simpl;
    subst; split; intros H; auto; try discriminate.
  destruct H as [H|[H|H]]; congruence.
Qed.

Lemma found_Some k s : found k = Some s <-> k = Some s /\ s <> "".
Proof.
  unfold found. destruct k as [t|]; [|intuition discriminate].
  destruct (String.eqb_spec t ""); split; intros H; try discriminate.
  - destruct H as [H ?]; injection H as <-; contradiction.
  - injection H as <-. auto.
  - destruct H as [H ?]. exact H.
Qed.

Lemma table_ok_empty : table_ok Obj.empty.
Proof. repeat split; simpl; try constructor; tauto. Qed.

Lemma table_ok_set o k v :
  table_ok o -> k <> "" -> v <> "" -> ~ In v (Obj.values o) ->
  table_ok (Obj.put k v o).
Proof.
  intros (Hk & Hke & Hv & Hve) Hk0 Hv0 Hfresh. repeat split.
  - now apply keys_set_NoDup.
  - rewrite keys_set. intros [E|H]; [congruence | contradiction].
  - now apply values_set_NoDup.
  - intros H. apply values_set in H as [E|H]; [congruence | contradiction].
Qed.

Lemma table_ok_assign o k v :
  table_ok o -> k <> "" -> v <> "" -> ~ In v (Obj.values o) ->
  table_ok (Obj.set k v o).
Proof.
  intros Hok Hk Hv Hfresh.
  destruct (set_cases o k v) as [-> | ->];
    [exact Hok | now apply table_ok_set].
Qed.

Lemma set_values o k v x :
  In x (Obj.values (Obj.set k v o)) -> x = v \/ In x (Obj.values o).
Proof.
  destruct (set_cases o k v) as [-> | ->]; [tauto | apply values_set].
Qed.

Lemma set_keys o k v k' :
  In k' (map fst (Obj.set k v o)) -> k' = k \/ In k' (map fst o).
Proof.
  destruct (set_cases o k v) as [-> | ->]; [tauto | apply keys_set].
Qed.

Lemma table_ok_delete o k : table_ok o -> table_ok (Obj.delete k o).
Proof.
  intros (Hk & Hke & Hv & Hve). repeat split.
  - now apply keys_delete_NoDup.
  - rewrite keys_delete. tauto.
  - now apply values_delete_NoDup.
  - intros H. now apply values_delete in H.
Qed.

Lemma connection_inv st id q :
  inv st -> id <> "" ->
  ~ In id (Obj.values (userSocketMap st)) ->
  ~ In id (Obj.values (expertSocketMap st)) ->
  inv (fst (connection st id q)).
Proof.
  intros [Hu He] Hid Hfu Hfe. unfold connection.
  destruct (claimed (q_userId q)) as [u|] eqn:Eu;
    destruct (claimed (q_expertId q)) as [e|] eqn:Ee; simpl; split;
    try assumption;
    try (apply claimed_Some in Eu as (_ & ? & _));
    try (apply claimed_Some in Ee as (_ & ? & _));
    now apply table_ok_assign.
Qed.

Lemma disconnect_inv st id : inv st -> inv (fst (disconnect st id)).
Proof.
  intros [Hu He]. unfold disconnect.
  destruct (found (Obj.find_key id (userSocketMap st)));
    destruct (found (Obj.find_key id (expertSocketMap st))); simpl; split;
    try assumption; now apply table_ok_delete.
Qed.

(** A step adds no socket id to a registry but that of a connection. *)
Lemma step_values st ev x :
  In x (Obj.values (userSocketMap (fst (step st ev))))
  \/ In x (Obj.values (expertSocketMap (fst (step st ev)))) ->
  In x (connections [ev])
  \/ In x (Obj.values (userSocketMap st))
  \/ In x (Obj.values (expertSocketMap st)).
Proof.
  destruct ev; simpl; try tauto.
  - unfold connection.
    destruct (claimed (q_userId q)); destruct (claimed (q_expertId q));
      simpl; intros [H|H]; try apply set_values in H; intuition.
  - unfold disconnect.
    destruct (found (Obj.find_key socket_id (userSocketMap st)));
      destruct (found (Obj.find_key socket_id (expertSocketMap st)));
      simpl; intros [H|H]; try apply values_delete in H; intuition.
Qed.

Lemma connections_cons ev tr :
  connections (ev :: tr) = connections [ev] ++ connections tr.
Proof. destruct ev; reflexivity. Qed.

Lemma step_inv st ev :
  inv st ->
  (forall id, In id (connections [ev]) ->
     id <> "" /\ ~ In id (Obj.values (userSocketMap st))
     /\ ~ In id (Obj.values (expertSocketMap st))) ->
  inv (fst (step st ev)).
Proof.
  intros Hinv Hfresh. destruct ev; simpl; try assumption.
  - destruct (Hfresh socket_id) as (? & ? & ?); [now left|].
    now apply connection_inv.
  - now apply disconnect_inv.
Qed.

Lemma run_inv tr : forall st,
  inv st ->
  NoDup (connections tr) -> ~ In "" (connections tr) ->
  (forall id, In id (connections tr) ->
     ~ In id (Obj.values (userSocketMap st))
     /\ ~ In id (Obj.values (expertSocketMap st))) ->
  inv (run st tr).
Proof.
  induction tr as [|ev tr IH]; intros st Hinv Hnd Hne Hfresh; [exact Hinv|].
  rewrite connections_cons in Hnd, Hne, Hfresh. simpl.
  apply IH.
  - apply step_inv; [exact Hinv|]. intros id Hid. split.
    + intros ->. apply Hne, in_or_app. now left.
    + apply Hfresh, in_or_app. now left.
  - now apply NoDup_app_remove_l in Hnd.
  - intros H. apply Hne, in_or_app. now right.
  - intros id Hid.
    assert (Hnew : ~ In id (connections [ev])).
    { intros Hin. revert Hnd Hin Hid. clear.
      destruct ev; simpl; try tauto.
      intros Hnd [<-|[]] Hid. now inversion Hnd. }
    assert (Hold : ~ In id (Obj.values (userSocketMap st))
                   /\ ~ In id (Obj.values (expertSocketMap st))).
    { apply Hfresh, in_or_app. now right. }
    split; intros Hin;
      (destruct (step_values st ev id) as [H|[H|H]];
       [auto | contradiction | tauto | tauto]).
Qed.

(** The invariant of the states of a run. *)
Lemma reachable_inv st : reachable st -> inv st.
Proof.
  intros (tr & [Hnd Hne] & ->). apply run_inv; try assumption.
  - split; apply table_ok_empty.
  - intros id _. simpl. tauto.
Qed.

(** ** Connection and disconnection, one registry at a time *)

Lemma connection_users st id q :
  userSocketMap (fst (connection st id q)) =
  match claimed (q_userId q) with
  | Some u => Obj.set u id (userSocketMap st)
  | None => userSocketMap st
  end.
Proof.
  unfold connection.
  now destruct (claimed (q_userId q)), (claimed (q_expertId q)).
Qed.

Lemma connection_experts st id q :
  expertSocketMap (fst (connection st id q)) =
  match claimed (q_expertId q) with
  | Some e => Obj.set e id (expertSocketMap st)
  | None => expertSocketMap st
  end.
Proof.
  unfold connection.
  now destruct (claimed (q_userId q)), (claimed (q_expertId q)).
Qed.

Lemma connection_broadcasts_users st id q :
  broadcasts "getOnlineUsers" (snd (connection st id q)) =
  match claimed (q_userId q) with
  | Some _ => [Keys (Object_keys (userSocketMap (fst (connection st id q))))]
  | None => []
  end.
Proof.
  unfold connection.
  now destruct (claimed (q_userId q)), (claimed (q_expertId q)).
Qed.

Lemma connection_broadcasts_experts st id q :
  broadcasts "getOnlineExperts" (snd (connection st id q)) =
  match claimed (q_expertId q) with
  | Some _ => [Keys (Object_keys (expertSocketMap (fst (connection st id q))))]
  | None => []
  end.
Proof.
  unfold connection.
  now destruct (claimed (q_userId q)), (claimed (q_expertId q)).
Qed.

Lemma disconnect_users st id :
  userSocketMap (fst (disconnect st id)) =
  match found (Obj.find_key id (userSocketMap st)) with
  | Some k => Obj.delete k (userSocketMap st)
  | None => userSocketMap st
  end.
Proof.
  unfold disconnect.
  now destruct (found (Obj.find_key id (userSocketMap st))),
               (found (Obj.find_key id (expertSocketMap st))).
Qed.

Lemma disconnect_experts st id :
  expertSocketMap (fst (disconnect st id)) =
  match found (Obj.find_key id (expertSocketMap st)) with
  | Some k => Obj.delete k (expertSocketMap st)
  | None => expertSocketMap st
  end.
Proof.
  unfold disconnect.
  now destruct (found (Obj.find_key id (userSocketMap st))),
               (found (Obj.find_key id (expertSocketMap st))).
Qed.

Lemma disconnect_broadcasts_users st id :
  broadcasts "getOnlineUsers" (snd (disconnect st id)) =
  match found (Obj.find_key id (userSocketMap st)) with
  | Some _ => [Keys (Object_keys (userSocketMap (fst (disconnect st id))))]
  | None => []
  end.
Proof.
  unfold disconnect.
  now destruct (found (Obj.find_key id (userSocketMap st))),
               (found (Obj.find_key id (expertSocketMap st))).
Qed.

Lemma disconnect_broadcasts_experts st id :
  broadcasts "getOnlineExperts" (snd (disconnect st id)) =
  match found (Obj.find_key id (expertSocketMap st)) with
  | Some _ => [Keys (Object_keys (expertSocketMap (fst (disconnect st id))))]
  | None => []
  end.
Proof.
  unfold disconnect.
  now destruct (found (Obj.find_key id (userSocketMap st))),
               (found (Obj.find_key id (expertSocketMap st))).
Qed.

(** A [disconnect] takes from a registry only an entry that holds the
    socket id of the closing connection. *)
Lemma disconnect_table_keeps o id k v :
  Obj.own k o = Some v -> v <> id ->
  Obj.own k (match found (Obj.find_key id o) with
             | Some k' => Obj.delete k' o
             | None => o
             end) = Some v.
Proof.
  intros Hk Hne. destruct (found (Obj.find_key id o)) as [k'|] eqn:E;
    [|exact Hk].
  apply found_Some in E as [E _]. apply find_key_Some in E.
  rewrite get_delete_other; [exact Hk|]. congruence.
Qed.

Lemma disconnect_table_stale o id :
  (forall k, Obj.own k o <> Some id) ->
  found (Obj.find_key id o) = None.
Proof.
  intros Hno. destruct (found (Obj.find_key id o)) as [k|] eqn:E;
    [|reflexivity].
  apply found_Some in E as [E _]. apply find_key_Some in E.
  now apply Hno in E.
Qed.

Lemma disconnect_table_removed o id k v :
  Obj.own k o = Some v ->
  Obj.own k (match found (Obj.find_key id o) with
             | Some k' => Obj.delete k' o
             | None => o
             end) = None ->
  v = id.
Proof.
  intros Hk Hgone. destruct (String.eqb_spec v id) as [E|Hne]; [exact E|].
  rewrite (disconnect_table_keeps o id k v Hk Hne) in Hgone. discriminate.
Qed.

(** The same, for either identity space. *)

Lemma lookup_registry sp st i : lookup sp st i = Obj.get i (registry sp st).
Proof. now destruct sp. Qed.

Lemma connection_registry sp st id q :
  registry sp (fst (connection st id q)) =
  match claimed (claim_of sp q) with
  | Some i => Obj.set i id (registry sp st)
  | None => registry sp st
  end.
Proof. destruct sp; [apply connection_users | apply connection_experts]. Qed.

Lemma connection_broadcasts sp st id q :
  broadcasts (snapshot_event sp) (snd (connection st id q)) =
  match claimed (claim_of sp q) with
  | Some _ => [Keys (Object_keys (registry sp (fst (connection st id q))))]
  | None => []
  end.
Proof.
  destruct sp;
    [apply connection_broadcasts_users | apply connection_broadcasts_experts].
Qed.

Lemma disconnect_registry sp st id :
  registry sp (fst (disconnect st id)) =
  match found (Obj.find_key id (registry sp st)) with
  | Some k => Obj.delete k (registry sp st)
  | None => registry sp st
  end.
Proof. destruct sp; [apply disconnect_users | apply disconnect_experts]. Qed.

Lemma disconnect_broadcasts sp st id :
  broadcasts (snapshot_event sp) (snd (disconnect st id)) =
  match found (Obj.find_key id (registry sp st)) with
  | Some _ => [Keys (Object_keys (registry sp (fst (disconnect st id))))]
  | None => []
  end.
Proof.
  destruct sp;
    [apply disconnect_broadcasts_users | apply disconnect_broadcasts_experts].
Qed.

Lemma lookup_own sp st i h :
  lookup sp st i = Obj.Own h <-> Obj.own i (registry sp st) = Some h.
Proof. rewrite lookup_registry. apply get_own. Qed.

Lemma connection_lookup sp st id q i :
  claimed (claim_of sp q) = Some i -> i <> "__proto__" ->
  lookup sp (fst (connection st id q)) i = Obj.Own id.
Proof.
  intros Hc Hp. rewrite lookup_own, connection_registry, Hc.
  rewrite set_put by exact Hp. apply get_set_same.
Qed.

(** A claim [__proto__] leaves a registry without such an own key as
    it was. *)
Lemma connection_proto sp st id q :
  claim_of sp q = Some "__proto__" ->
  Obj.own "__proto__" (registry sp st) = None ->
  registry sp (fst (connection st id q)) = registry sp st.
Proof.
  intros Hc Hown. rewrite connection_registry.
  assert (C : claimed (claim_of sp q) = Some "__proto__")
    by (apply claimed_Some; repeat split; [exact Hc | discriminate ..]).
  rewrite C. now apply set_proto.
Qed.

(** ** Registration and lookup *)

(** C2 at the handshake claim "__proto__": the assignment
    [userSocketMap[userId] = socket.id] stores nothing, the registry
    stays empty, and the lookup gives the prototype of the map, not the
    handle of the connection. *)
Lemma proto_claim_lookup :
  let st := fst (connection initial "sockA"
                   (mkQuery (Some "__proto__") None)) in
  userSocketMap st = Obj.empty
  /\ getReceiverSocketId st "__proto__" = Obj.Inherited "__proto__"
  /\ getReceiverSocketId st "__proto__" <> Obj.Own "sockA".
Proof. repeat split. discriminate. Qed.

(** X20: after a connection registers handle [h1] under a claim [i]
    other than "__proto__" in a space, the lookup of [i] in that space
    gives [h1]; after a second connection registers [h2] under the same
    claim, the lookup gives [h2], and not [h1] when the two handles
    differ. *)
Theorem register_then_lookup (sp : space) (st : state) (i h1 h2 : string)
    (q1 q2 : query) :
  claim_of sp q1 = Some i -> claim_of sp q2 = Some i ->
  i <> "" -> i <> "undefined" -> i <> "__proto__" ->
  let st1 := fst (connection st h1 q1) in
  let st2 := fst (connection st1 h2 q2) in
  lookup sp st1 i = Obj.Own h1
  /\ lookup sp st2 i = Obj.Own h2
  /\ (h1 <> h2 -> lookup sp st2 i <> Obj.Own h1).
Proof.
  intros H1 H2 Hne Hnu Hp st1 st2.
  assert (C1 : claimed (claim_of sp q1) = Some i) by now apply claimed_Some.
  assert (C2 : claimed (claim_of sp q2) = Some i) by now apply claimed_Some.
  assert (L2 : lookup sp st2 i = Obj.Own h2) by now apply connection_lookup.
  repeat split.
  - now apply connection_lookup.
  - exact L2.
  - intros Hh. rewrite L2. congruence.
Qed.

Lemma register_then_lookup_witness :
  let q := mkQuery None (Some "e1") in
  let st1 := fst (connection initial "sockA" q) in
  let st2 := fst (connection st1 "sockB" q) in
  lookup Expert st1 "e1" = Obj.Own "sockA"
  /\ lookup Expert st2 "e1" = Obj.Own "sockB"
  /\ ("sockA" <> "sockB" -> lookup Expert st2 "e1" <> Obj.Own "sockA").
Proof.
  apply (register_then_lookup Expert initial "e1" "sockA" "sockB"
           (mkQuery None (Some "e1")) (mkQuery None (Some "e1")));
    [reflexivity | reflexivity | discriminate | discriminate | discriminate].
Defined.

(** C1: when [h1] and then [h2] have been registered to identity [i]
    by two connections, the disconnect of [h1] leaves the mapping of [i]
    to [h2], then and in any later state where [i] still maps to [h2];
    a disconnect removes an entry only if the entry holds the socket id
    of the closing connection, and when no entry holds it the registry
    is unchanged and no snapshot is broadcast. *)
Theorem stale_disconnect_keeps_newer (sp : space) (st : state)
    (i h1 h2 : string) (q1 q2 : query) :
  claim_of sp q1 = Some i -> claim_of sp q2 = Some i ->
  h1 <> h2 ->
  let st1 := fst (connection st h1 q1) in
  let st2 := fst (connection st1 h2 q2) in
  let st3 := fst (disconnect st2 h1) in
  lookup sp st1 i = Obj.Own h1 ->
  lookup sp st2 i = Obj.Own h2 ->
  lookup sp st3 i = Obj.Own h2
  /\ (forall s,
        lookup sp s i = Obj.Own h2 ->
        lookup sp (fst (disconnect s h1)) i = Obj.Own h2)
  /\ (forall s id k v,
        lookup sp s k = Obj.Own v ->
        lookup sp (fst (disconnect s id)) k <> Obj.Own v -> v = id)
  /\ ((forall k, lookup sp st2 k <> Obj.Own h1) ->
      registry sp st3 = registry sp st2
      /\ broadcasts (snapshot_event sp) (snd (disconnect st2 h1)) = []).
Proof.
  intros H1 H2 Hh st1 st2 st3 L1 L2.
  assert (Keep : forall s, lookup sp s i = Obj.Own h2 ->
                 lookup sp (fst (disconnect s h1)) i = Obj.Own h2).
  { intros s Hs. rewrite lookup_own, disconnect_registry.
    rewrite lookup_own in Hs.
    apply disconnect_table_keeps; [exact Hs | congruence]. }
  assert (Stale : (forall k, lookup sp st2 k <> Obj.Own h1) ->
                  found (Obj.find_key h1 (registry sp st2)) = None).
  { intros Hno. apply disconnect_table_stale. intros k Hk.
    apply (Hno k). now apply lookup_own. }
  repeat split.
  - now apply Keep.
  - exact Keep.
  - intros s id k v Hk Hgone. rewrite lookup_own in Hk.
    destruct (String.eqb_spec v id) as [E|Hne]; [exact E|].
    exfalso. apply Hgone. rewrite lookup_own, disconnect_registry.
    now apply disconnect_table_keeps.
  - unfold st3. rewrite disconnect_registry. now rewrite Stale.
  - rewrite disconnect_broadcasts. now rewrite Stale.
Qed.

Lemma stale_disconnect_keeps_newer_witness :
  let q := mkQuery (Some "u1") None in
  let st2 := fst (connection (fst (connection initial "sockA" q)) "sockB" q) in
  let st3 := fst (disconnect st2 "sockA") in
  lookup User st3 "u1" = Obj.Own "sockB"
  /\ registry User st3 = registry User st2
  /\ broadcasts "getOnlineUsers" (snd (disconnect st2 "sockA")) = [].
Proof.
  intros q st2 st3.
  destruct (stale_disconnect_keeps_newer User initial "u1" "sockA" "sockB" q q)
    as (Hkeep & _ & _ & Hstale);
    [reflexivity | reflexivity | discriminate | reflexivity | reflexivity |].
  split; [exact Hkeep|].
  apply Hstale. intros k Hk. apply (lookup_own User) in Hk.
  assert (Hk' : (if String.eqb "u1" k then Some "sockB" else @None string)
                = Some "sockA") by exact Hk.
  destruct (String.eqb "u1" k); discriminate.
Defined.

(** ** Handshake claims *)

(** C7 at the handshake claim "__proto__": the claim is neither
    missing, empty nor the placeholder, yet nothing is registered, and
    the snapshot that is broadcast does not list the identity. *)
Lemma proto_claim_handshake :
  let q := mkQuery (Some "__proto__") None in
  let st' := fst (connection initial "sockA" q) in
  ~ absent (q_userId q)
  /\ registry User st' = registry User initial
  /\ lookup User st' "__proto__" <> Obj.Own "sockA"
  /\ snd (connection initial "sockA" q)
     = [Broadcast "getOnlineUsers" (Keys [])].
Proof.
  repeat split; try discriminate.
  intros [H|[H|H]]; discriminate.
Qed.

(** X21: each handshake claim is handled on its own.  A claim that is
    missing, empty or the string "undefined" registers nothing in its
    space and causes no snapshot broadcast of that space; any other
    claim causes one snapshot broadcast of that space and, unless it is
    "__proto__", registers the connection under it, so that the
    snapshot lists it; a claim "__proto__" leaves a registry without
    such a key as it was.  A handshake with both claims registers the
    connection in both spaces, and the connection handler emits nothing
    but these broadcasts. *)
Theorem handshake_claims (st : state) (id : string) (q : query) :
  let st' := fst (connection st id q) in
  let out := snd (connection st id q) in
  (forall sp,
     absent (claim_of sp q) ->
     registry sp st' = registry sp st
     /\ broadcasts (snapshot_event sp) out = [])
  /\ (forall sp i,
        claim_of sp q = Some i -> i <> "" -> i <> "undefined" ->
        broadcasts (snapshot_event sp) out
        = [Keys (Object_keys (registry sp st'))]
        /\ (i <> "__proto__" ->
            lookup sp st' i = Obj.Own id
            /\ In i (Object_keys (registry sp st')))
        /\ (i = "__proto__" ->
            ~ In i (Object_keys (registry sp st)) ->
            registry sp st' = registry sp st))
  /\ (forall u e,
        q_userId q = Some u -> u <> "" -> u <> "undefined" ->
        u <> "__proto__" ->
        q_expertId q = Some e -> e <> "" -> e <> "undefined" ->
        e <> "__proto__" ->
        lookup User st' u = Obj.Own id /\ lookup Expert st' e = Obj.Own id)
  /\ List.length out
     = List.length (broadcasts "getOnlineUsers" out)
       + List.length (broadcasts "getOnlineExperts" out).
Proof.
  intros st' out. split; [|split; [|split]].
  - intros sp H. apply claimed_None in H. split.
    + unfold st'. now rewrite connection_registry, H.
    + unfold out. now rewrite connection_broadcasts, H.
  - intros sp i Hc Hi Hu.
    assert (C : claimed (claim_of sp q) = Some i) by now apply claimed_Some.
    split; [|split].
    + unfold out. now rewrite connection_broadcasts, C.
    + intros Hp.
      assert (L : lookup sp st' i = Obj.Own id) by now apply connection_lookup.
      split; [exact L|].
      apply Object_keys_In. apply lookup_own, get_Some_In in L.
      now apply (in_map fst) in L.
    + intros -> Hnot. apply connection_proto; [exact Hc|].
      rewrite Object_keys_In in Hnot. now apply get_notin.
  - intros u e Hu Hu1 Hu2 Hu3 He He1 He2 He3. split.
    + apply (connection_lookup User); [now apply claimed_Some | exact Hu3].
    + apply (connection_lookup Expert); [now apply claimed_Some | exact He3].
  - unfold out, connection.
    now destruct (claimed (q_userId q)), (claimed (q_expertId q)).
Qed.

Lemma handshake_claims_witness :
  let q := mkQuery (Some "undefined") (Some "e1") in
  let st' := fst (connection initial "sockA" q) in
  let out := snd (connection initial "sockA" q) in
  (registry User st' = registry User initial
   /\ broadcasts "getOnlineUsers" out = [])
  /\ lookup Expert st' "e1" = Obj.Own "sockA"
  /\ broadcasts "getOnlineExperts" out = [Keys ["e1"]].
Proof.
  intros q st' out.
  destruct (handshake_claims initial "sockA" q) as (Habs & Hreg & _ & _).
  split.
  - apply (Habs User). right. right. reflexivity.
  - destruct (Hreg Expert "e1") as (Hb & Hl & _);
      [reflexivity | discriminate | discriminate |].
    split; [apply Hl; discriminate | exact Hb].
Defined.

(** ** Disconnection *)

(** In a state of a run, the disconnect of the connection registered
    under a key finds that key. *)
Lemma disconnect_finds sp st id k :
  inv st -> lookup sp st k = Obj.Own id ->
  found (Obj.find_key id (registry sp st)) = Some k.
Proof.
  intros Hinv Hk. rewrite lookup_own in Hk.
  assert (Hok : table_ok (registry sp st)) by (destruct sp; apply Hinv).
  destruct Hok as (_ & Hke & Hv & _).
  destruct (find_key_held _ _ _ Hk) as [k' Hf].
  assert (k' = k) as ->.
  { apply find_key_Some in Hf. exact (held_once _ _ _ _ Hv Hf Hk). }
  apply found_Some. split; [exact Hf|].
  intros ->. apply Hke. apply get_Some_In in Hk.
  now apply (in_map fst) in Hk.
Qed.

(** A snapshot is broadcast on disconnect only for a registry that the
    disconnect changed. *)
Lemma disconnect_broadcast_changed sp st id :
  broadcasts (snapshot_event sp) (snd (disconnect st id)) <> [] ->
  registry sp (fst (disconnect st id)) <> registry sp st.
Proof.
  rewrite disconnect_broadcasts, disconnect_registry.
  destruct (found (Obj.find_key id (registry sp st))) as [k|] eqn:E;
    [intros _ | congruence].
  apply found_Some in E as [E _]. apply find_key_Some in E.
  now apply delete_changes with (v := id).
Qed.

(** C5: when the connection registered as user [u] disconnects, [u]
    leaves the user registry and its snapshot, the other users stay,
    one [getOnlineUsers] broadcast carries the new snapshot (without
    [u]), a snapshot of a space is broadcast only if the registry of
    that space changed, and no [getOnlineExperts] is broadcast when the
    connection holds no entry of the expert registry. *)
Theorem disconnect_user_offline (st : state) (s u : string) :
  reachable st ->
  getReceiverSocketId st u = Obj.Own s ->
  let st' := fst (disconnect st s) in
  let out := snd (disconnect st s) in
  ~ In u (Object_keys (userSocketMap st'))
  /\ (forall k, k <> u ->
        getReceiverSocketId st' k = getReceiverSocketId st k)
  /\ broadcasts "getOnlineUsers" out
     = [Keys (Object_keys (userSocketMap st'))]
  /\ (forall sp,
        broadcasts (snapshot_event sp) out <> [] ->
        registry sp st' <> registry sp st)
  /\ ((forall e, getExpertSocketId st e <> Obj.Own s) ->
      expertSocketMap st' = expertSocketMap st
      /\ broadcasts "getOnlineExperts" out = []).
Proof.
  intros Hr Hu st' out. apply reachable_inv in Hr.
  pose proof (disconnect_finds User st s u Hr Hu) as Hf. simpl in Hf.
  assert (Hst' : userSocketMap st' = Obj.delete u (userSocketMap st)).
  { unfold st'. now rewrite disconnect_users, Hf. }
  split; [|split; [|split; [|split]]].
  - rewrite Object_keys_In, Hst', keys_delete. tauto.
  - intros k Hk. unfold getReceiverSocketId, Obj.get. rewrite Hst'.
    rewrite get_delete_other by congruence. reflexivity.
  - unfold out. now rewrite disconnect_broadcasts_users, Hf.
  - intros sp. apply disconnect_broadcast_changed.
  - intros Hno. unfold st', out.
    rewrite disconnect_experts, disconnect_broadcasts_experts.
    rewrite (disconnect_table_stale (expertSocketMap st) s); [now split|].
    intros e He. apply (Hno e). now apply (lookup_own Expert).
Qed.

Lemma disconnect_user_offline_witness :
  let tr := [Connection "sockA" (mkQuery (Some "u1") None);
             Connection "sockB" (mkQuery (Some "u2") None)] in
  let st := run initial tr in
  let st' := fst (disconnect st "sockA") in
  reachable st /\ getReceiverSocketId st "u1" = Obj.Own "sockA"
  /\ ~ In "u1" (Object_keys (userSocketMap st'))
  /\ broadcasts "getOnlineUsers" (snd (disconnect st "sockA"))
     = [Keys ["u2"]]
  /\ broadcasts "getOnlineExperts" (snd (disconnect st "sockA")) = [].
Proof.
  intros tr st st'.
  assert (Hr : reachable st).
  { exists tr. split; [split|reflexivity].
    - repeat constructor; simpl; intuition discriminate.
    - simpl. intuition discriminate. }
  assert (Hu : getReceiverSocketId st "u1" = Obj.Own "sockA") by reflexivity.
  destruct (disconnect_user_offline st "sockA" "u1" Hr Hu)
    as (Hgone & _ & Hb & _ & Hexp).
  split; [exact Hr|]. split; [exact Hu|]. split; [exact Hgone|].
  split; [exact Hb|].
  apply Hexp. intros e He. apply (lookup_own Expert) in He. discriminate.
Defined.

(** ** Direct delivery *)

Lemma held_not_empty o k v : table_ok o -> Obj.own k o = Some v -> v <> "".
Proof.
  intros (_ & _ & _ & Hve) Hk ->. apply Hve.
  apply get_Some_In in Hk. now apply (in_map snd) in Hk.
Qed.

Lemma online_held st sp i h :
  inv st -> lookup sp st i = Obj.Own h -> online (Obj.Own h) = Some (Room h).
Proof.
  intros Hinv Hi. apply lookup_own in Hi.
  assert (Hok : table_ok (registry sp st)) by (destruct sp; apply Hinv).
  pose proof (held_not_empty _ _ _ Hok Hi) as Hh. simpl.
  destruct (String.eqb_spec h ""); [contradiction | reflexivity].
Qed.

(** In a state of a run, [userSocketMap[r] || expertSocketMap[r]] is
    what the user registry gives when that is a socket id or a member
    of the prototype, and what the expert registry gives otherwise. *)
Lemma receiver_resolution st r :
  inv st ->
  online (receiverSocketId st (VStr r)) =
  match getReceiverSocketId st r with
  | Obj.Own h => Some (Room h)
  | Obj.Inherited k => Some (ProtoRoom k)
  | Obj.Absent => online (getExpertSocketId st r)
  end.
Proof.
  intros Hinv.
  unfold receiverSocketId, or_else. simpl ToString.
  fold (getReceiverSocketId st r). fold (getExpertSocketId st r).
  destruct (getReceiverSocketId st r) as [h|k|] eqn:Eu; simpl Obj.truthy_result.
  - pose proof Eu as Eo. apply (lookup_own User) in Eo.
    pose proof (held_not_empty _ _ _ (proj1 Hinv) Eo) as Hh.
    destruct (String.eqb_spec h ""); [contradiction|]. simpl.
    destruct (String.eqb_spec h ""); [contradiction | reflexivity].
  - reflexivity.
  - reflexivity.
Qed.

(** C3 at the receiver "constructor": an expert registered under that
    identity, and in the expert space only, is never reached; the read
    of the user registry gives the inherited constructor, which passes
    the test, and the event is emitted to the room of that function. *)
Lemma inherited_receiver_not_reached :
  let st := run initial
              [Connection "sockB" (mkQuery None (Some "constructor"))] in
  let d := [("senderId", VStr "u1"); ("receiverId", VStr "constructor");
            ("text", VStr "hi")] in
  getExpertSocketId st "constructor" = Obj.Own "sockB"
  /\ ~ In "constructor" (Object_keys (userSocketMap st))
  /\ getReceiverSocketId st "constructor" = Obj.Inherited "constructor"
  /\ targets (sendMessage st 1700 1701 d) = []
  /\ messageEdited st d
     = [EmitToObject "constructor" "messageEdited" (forward d)].
Proof.
  repeat split. simpl. tauto.
Qed.



(** ** The lookup helpers of the HTTP controllers *)

Lemma object_id_not_inherited i :
  is_object_id i = true -> Obj.proto i = Obj.Absent.
Proof.
  intros Hid. unfold Obj.proto.
  destruct (Obj.inherited i) eqn:E; [|reflexivity].
  unfold Obj.inherited in E. apply existsb_exists in E as (t & Hin & Heq).
  apply String.eqb_eq in Heq. subst t. unfold Obj.inherited_names in Hin.
  simpl in Hin.
  repeat (destruct Hin as [<-|Hin]; [discriminate Hid|]). contradiction.
Qed.

(** C10: [getReceiverSocketId] reads the user registry only.  For an
    identity that is in the expert registry and not in the user
    registry it gives no handle and the sender confirmation of
    [deleteFileExpert] reaches no connection; for the string of an
    [ObjectId], which is what the controller passes, it gives
    [undefined] and nothing is emitted; [getExpertSocketId] gives the
    handle.  The confirmation is delivered only when the identity is
    also in the user registry, to the handle held there. *)
Theorem receiver_lookup_is_user_only (st : state) (i : string)
    (fileId : string) (deleteType : value) (now : Z) :
  (forall experts,
     getReceiverSocketId (mkState (userSocketMap st) experts) i
     = getReceiverSocketId st i)
  /\ (In i (Object_keys (expertSocketMap st)) ->
      ~ In i (Object_keys (userSocketMap st)) ->
      (forall h, getReceiverSocketId st i <> Obj.Own h)
      /\ targets (deleteFileExpert_confirmation st i fileId deleteType now)
         = []
      /\ (is_object_id i = true ->
          getReceiverSocketId st i = Obj.Absent
          /\ deleteFileExpert_confirmation st i fileId deleteType now = [])
      /\ exists h, getExpertSocketId st i = Obj.Own h)
  /\ (reachable st ->
      forall hu, getReceiverSocketId st i = Obj.Own hu ->
      targets (deleteFileExpert_confirmation st i fileId deleteType now)
      = [hu]).
Proof.
  split; [reflexivity|]. split.
  - intros He Hu. rewrite Object_keys_In in He, Hu.
    assert (Hnone : getReceiverSocketId st i = Obj.proto i).
    { unfold getReceiverSocketId. now apply get_not_own, get_notin. }
    split; [|split; [|split]].
    + intros h Hh. rewrite Hnone in Hh. unfold Obj.proto in Hh.
      destruct (Obj.inherited i); discriminate.
    + unfold deleteFileExpert_confirmation. rewrite Hnone.
      unfold Obj.proto. destruct (Obj.inherited i); reflexivity.
    + intros Hid. unfold deleteFileExpert_confirmation.
      rewrite Hnone, (object_id_not_inherited i Hid). now split.
    + apply In_get in He as [h Hh]. exists h.
      now apply (lookup_own Expert).
  - intros Hr hu Hu. apply reachable_inv in Hr.
    unfold deleteFileExpert_confirmation.
    rewrite Hu, (online_held st User i hu Hr Hu). reflexivity.
Qed.

Lemma receiver_lookup_is_user_only_witness :
  let i := "507f1f77bcf86cd799439011" in
  let st := run initial [Connection "sockB" (mkQuery None (Some i))] in
  getReceiverSocketId st i = Obj.Absent
  /\ deleteFileExpert_confirmation st i "f1" (VStr "soft") 1700 = []
  /\ exists h, getExpertSocketId st i = Obj.Own h.
Proof.
  intros i st.
  destruct (receiver_lookup_is_user_only st i "f1" (VStr "soft") 1700)
    as (_ & Honly & _).
  destruct Honly as (_ & _ & Hid & Hex).
  - simpl. now left.
  - simpl. tauto.
  - destruct (Hid eq_refl) as [Ha Hc]. split; [exact Ha|].
    split; [exact Hc | exact Hex].
Defined.

(** ** Room identifiers *)

Lemma join_pair (x y : value) :
  join "-" [x; y] = (join_elt x ++ "-" ++ join_elt y)%string.
Proof. reflexivity. Qed.

(** The room identifier of two strings: the smaller one first. *)
Lemma roomId_strings a b :
  roomId (VStr a) (VStr b) =
  if String.ltb b a then (b ++ "-" ++ a)%string else (a ++ "-" ++ b)%string.
Proof.
  unfold roomId. simpl sort. unfold sort_lt. simpl ToString.
  now destruct (String.ltb b a).
Qed.

Lemma roomId_sym a b : roomId (VStr a) (VStr b) = roomId (VStr b) (VStr a).
Proof.
  rewrite !roomId_strings. unfold String.ltb.
  rewrite (String.compare_antisym a b).
  destruct (String.compare b a) eqn:E; simpl; try reflexivity.
  apply String.compare_eq_iff in E. now subst.
Qed.

(** C4: the room identifier of a pair of tokens does not depend on the
    order of the pair, and the relay handlers and the HTTP handlers all
    address the room of that identifier, whichever of the two is the
    sender. *)
Theorem room_key_symmetric (a b : string) :
  roomId (VStr a) (VStr b) = roomId (VStr b) (VStr a)
  /\ (forall d d' : payload,
        field "senderId" d = VStr a -> field "receiverId" d = VStr b ->
        field "senderId" d' = VStr b -> field "receiverId" d' = VStr a ->
        targets (expertMessageEdited d) = [roomId (VStr a) (VStr b)]
        /\ targets (expertMessageEdited d') = targets (expertMessageEdited d)
        /\ targets (expertMessageDeleted d') = targets (expertMessageEdited d)
        /\ targets (conversationDeleted d') = targets (expertMessageEdited d))
  /\ (forall d d' : payload,
        field "senderID" d = VStr a -> field "receiverID" d = VStr b ->
        field "senderID" d' = VStr b -> field "receiverID" d' = VStr a ->
        targets (allExpertMessagesDeleted d) = [roomId (VStr a) (VStr b)]
        /\ targets (allExpertMessagesDeleted d')
           = targets (allExpertMessagesDeleted d))
  /\ (forall m m' now now' id id',
        targets (sendExpertMessage_emit a b m) = [roomId (VStr a) (VStr b)]
        /\ targets (sendExpertMessage_emit b a m')
           = targets (sendExpertMessage_emit a b m)
        /\ targets (editExpertMessage_emit b a m')
           = targets (editExpertMessage_emit a b m)
        /\ targets (deleteExpertMessage_emit id' b a)
           = targets (deleteExpertMessage_emit id a b)
        /\ targets (deleteAllExpertMessages_emit b a now')
           = targets (deleteAllExpertMessages_emit a b now)
        /\ targets (deleteAllExpertMessages_emit a b now)
           = targets (sendExpertMessage_emit a b m)
        /\ targets (deleteExpertMessage_emit id a b)
           = targets (editExpertMessage_emit a b m)
        /\ targets (editExpertMessage_emit a b m)
           = targets (sendExpertMessage_emit a b m)).
Proof.
  split; [apply roomId_sym|]. split; [|split].
  - intros d d' Hs Hr Hs' Hr'.
    unfold expertMessageEdited, expertMessageDeleted, conversationDeleted.
    simpl targets. rewrite Hs, Hr, Hs', Hr', (roomId_sym b a). tauto.
  - intros d d' Hs Hr Hs' Hr'. unfold allExpertMessagesDeleted.
    simpl targets. rewrite Hs, Hr, Hs', Hr', (roomId_sym b a). tauto.
  - intros m m' now now' id id'.
    unfold sendExpertMessage_emit, deleteAllExpertMessages_emit,
      editExpertMessage_emit, deleteExpertMessage_emit.
    simpl targets. rewrite (roomId_sym b a). tauto.
Qed.

Lemma room_key_symmetric_witness :
  roomId (VStr "e2") (VStr "e1") = "e1-e2"
  /\ targets (expertMessageEdited
                [("senderId", VStr "e2"); ("receiverId", VStr "e1")])
     = targets (expertMessageEdited
                  [("senderId", VStr "e1"); ("receiverId", VStr "e2")]).
Proof.
  destruct (room_key_symmetric "e1" "e2") as (Hsym & Hrelay & _).
  split.
  - rewrite <- Hsym. reflexivity.
  - apply (Hrelay [("senderId", VStr "e1"); ("receiverId", VStr "e2")]
                  [("senderId", VStr "e2"); ("receiverId", VStr "e1")]);
      reflexivity.
Defined.

(** Counterexample to C8 as stated: a token with the separator passes
    the handshake, and two different pairs of such tokens share a room
    identifier. *)
Lemma room_key_collision :
  let st := fst (connection initial "sockA" (mkQuery None (Some "a-b"))) in
  lookup Expert st "a-b" = Obj.Own "sockA"
  /\ joinRoom "sockA" "a-b-c" = [Join "sockA" "a-b-c"]
  /\ roomId (VStr "a-b") (VStr "c") = roomId (VStr "a") (VStr "b-c")
  /\ ~ (("a-b" = "a" /\ "c" = "b-c") \/ ("a-b" = "b-c" /\ "c" = "a")).
Proof.
  repeat split. intros [[H _]|[H _]]; discriminate.
Qed.

Lemma separator_split x : forall x' y y',
  separator_free x = true -> separator_free x' = true ->
  (x ++ "-" ++ y)%string = (x' ++ "-" ++ y')%string ->
  x = x' /\ y = y'.
Proof.
  induction x as [|c x IH]; intros [|c' x'] y y' Hx Hx' E; simpl in *.
  - injection E as ->. auto.
  - injection E as <- _. discriminate.
  - injection E as -> _. discriminate.
  - injection E as <- E.
    apply andb_prop in Hx as [_ Hx]. apply andb_prop in Hx' as [_ Hx'].
    destruct (IH x' y y' Hx Hx' E) as [-> ->]. auto.
Qed.

(** C8, as the code has it: no charset is checked at the handshake or
    at [joinRoom]; on tokens that do not contain the separator "-" the
    room identifier determines the unordered pair. *)
Theorem room_key_injective (a b c d : string) :
  separator_free a = true -> separator_free b = true ->
  separator_free c = true -> separator_free d = true ->
  roomId (VStr a) (VStr b) = roomId (VStr c) (VStr d) ->
  (a = c /\ b = d) \/ (a = d /\ b = c).
Proof.
  intros Ha Hb Hc Hd. rewrite !roomId_strings.
  destruct (String.ltb b a), (String.ltb d c); intros E;
    apply separator_split in E as [-> ->]; auto.
Qed.

Lemma room_key_injective_witness :
  ("e1" = "e2" /\ "e2" = "e1") \/ ("e1" = "e1" /\ "e2" = "e2").
Proof.
  apply (room_key_injective "e1" "e2" "e2" "e1"); reflexivity.
Defined.

(** ** Payloads *)

(** Counterexample to C9 as stated: the outbound
    [allExpertMessagesDeleted] names its fields [senderID] and
    [receiverID], which are not the names [senderId] and [receiverId] of
    the outbound [allMessagesDeleted]; an inbound event that uses the
    latter names is sent to the room "-" without the identities. *)
Lemma all_expert_deleted_field_names :
  let st := run initial [Connection "sockB" (mkQuery None (Some "e2"))] in
  let d := [("senderID", VStr "e1"); ("receiverID", VStr "e2")] in
  let d' := [("senderId", VStr "e1"); ("receiverId", VStr "e2")] in
  map field_names (delivered (allExpertMessagesDeleted d))
  = [["senderID"; "receiverID"]]
  /\ map field_names (delivered (allExpertMessagesDeleted d))
     <> [["senderId"; "receiverId"]]
  /\ map field_names (delivered (allMessagesDeleted st d'))
     = [["senderId"; "receiverId"]]
  /\ allExpertMessagesDeleted d'
     = [EmitTo "-" "allExpertMessagesDeleted"
          (Object [("senderID", Val VUndefined);
                   ("receiverID", Val VUndefined)])].
Proof.
  repeat split. discriminate.
Qed.

(** C9, as the code has it: the outbound [allExpertMessagesDeleted] has
    exactly the two fields [senderID] and [receiverID], holding the
    identities the inbound event gives under these names, and it is
    sent to the room of the sorted pair of these identities; the HTTP
    handler sends to the same room and uses the same two names. *)
Theorem all_expert_deleted_payload (a b : string) (d : payload) :
  field "senderID" d = VStr a ->
  field "receiverID" d = VStr b ->
  exists fs,
    allExpertMessagesDeleted d
    = [EmitTo (roomId (VStr a) (VStr b)) "allExpertMessagesDeleted"
         (Object fs)]
    /\ map fst fs = ["senderID"; "receiverID"]
    /\ ofield "senderID" fs = Some (Val (VStr a))
    /\ ofield "receiverID" fs = Some (Val (VStr b))
    /\ roomId (VStr a) (VStr b)
       = (if String.ltb b a then (b ++ "-" ++ a)%string
          else (a ++ "-" ++ b)%string)
    /\ forall now,
         targets (deleteAllExpertMessages_emit a b now)
         = targets (allExpertMessagesDeleted d)
         /\ Forall (fun body =>
                      exists gs, body = Object gs
                      /\ ofield "senderID" gs = Some (Val (VStr a))
                      /\ ofield "receiverID" gs = Some (Val (VStr b)))
              (delivered (deleteAllExpertMessages_emit a b now)).
Proof.
  intros Hs Hr. unfold allExpertMessagesDeleted. rewrite Hs, Hr.
  eexists. split; [reflexivity|]. repeat split.
  - apply roomId_strings.
  - repeat constructor. eexists. repeat split.
Qed.

Lemma all_expert_deleted_payload_witness :
  exists fs,
    allExpertMessagesDeleted
      [("senderID", VStr "e2"); ("receiverID", VStr "e1")]
    = [EmitTo "e1-e2" "allExpertMessagesDeleted" (Object fs)]
    /\ map fst fs = ["senderID"; "receiverID"].
Proof.
  destruct (all_expert_deleted_payload "e2" "e1"
              [("senderID", VStr "e2"); ("receiverID", VStr "e1")]
              eq_refl eq_refl) as (fs & He & Hn & _).
  exists fs. split; [exact He | exact Hn].
Defined.

(** Counterexample to C6 as stated: [sendMessage] builds the
    [newMessage] it delivers; with no [_id], [time], [isFile], [fileId]
    and [isVoice] in the event, the payload delivered has them, and is
    not the payload received. *)
Lemma send_message_defaults :
  let st := run initial [Connection "sockB" (mkQuery None (Some "e1"))] in
  let d := [("senderId", VStr "u1"); ("receiverId", VStr "e1");
            ("text", VStr "hi")] in
  delivered (sendMessage st 1700 1701 d)
  = [Object [("_id", Val (VStr "1700"));
             ("senderId", Val (VStr "u1"));
             ("receiverId", Val (VStr "e1"));
             ("text", Val (VStr "hi"));
             ("time", DateObj 1701);
             ("isFile", Val (VBool false));
             ("fileId", Val VNull);
             ("isVoice", Val (VBool false))]]
  /\ delivered (sendMessage st 1700 1701 d) <> [forward d].
Proof.
  split; [reflexivity | discriminate].
Qed.

(** C6, as the code has it: the handlers only read the event.  The
    edit events and [conversationDeleted] are delivered with the payload
    received.  The [newMessage] that
    [sendMessage] delivers is a new object of exactly eight fields:
    [senderId], [receiverId] and [text] are those of the event; each of
    [_id], [time], [isFile], [fileId] and [isVoice] is that of the event
    when it is truthy, and otherwise the clock reading as a string, the
    current date, [false], [null] and [false]. *)
Theorem relayed_payloads (st : state) (t1 t2 : Z) (d : payload) :
  Forall (fun b => b = forward d) (delivered (messageEdited st d))
  /\ delivered (expertMessageEdited d) = [forward d]
  /\ delivered (conversationDeleted d) = [forward d]
  /\ Forall (fun b => exists fs,
       b = Object fs
       /\ map fst fs = ["_id"; "senderId"; "receiverId"; "text"; "time";
                        "isFile"; "fileId"; "isVoice"]
       /\ (forall k, In k ["senderId"; "receiverId"; "text"] ->
             ofield k fs = Some (Val (field k d)))
       /\ (forall k, In k ["_id"; "time"; "isFile"; "fileId"; "isVoice"] ->
             truthy (field k d) = true ->
             ofield k fs = Some (Val (field k d)))
       /\ (truthy (field "_id" d) = false ->
             ofield "_id" fs = Some (Val (VStr (string_of_Z t1))))
       /\ (truthy (field "time" d) = false ->
             ofield "time" fs = Some (DateObj t2))
       /\ (truthy (field "isFile" d) = false ->
             ofield "isFile" fs = Some (Val (VBool false)))
       /\ (truthy (field "fileId" d) = false ->
             ofield "fileId" fs = Some (Val VNull))
       /\ (truthy (field "isVoice" d) = false ->
             ofield "isVoice" fs = Some (Val (VBool false))))
     (delivered (sendMessage st t1 t2 d)).
Proof.
  split; [|split; [|split]]; try reflexivity.
  - unfold messageEdited.
    destruct (online _) as [[id|k]|]; simpl; repeat constructor.
  - unfold sendMessage.
    destruct (online _) as [[id|k]|]; simpl; [|constructor ..].
    constructor; [|constructor].
    eexists. split; [reflexivity|]. split; [reflexivity|].
    unfold or_default.
    repeat split; simpl.
    + intros k [<-|[<-|[<-|[]]]]; reflexivity.
    + intros k [<-|[<-|[<-|[<-|[<-|[]]]]]] Hk; simpl; now rewrite Hk.
    + intros Hk. now rewrite Hk.
    + intros Hk. now rewrite Hk.
    + intros Hk. now rewrite Hk.
    + intros Hk. now rewrite Hk.
    + intros Hk. now rewrite Hk.
Qed.

Lemma relayed_payloads_witness :
  let st := run initial [Connection "sockB" (mkQuery None (Some "e1"))] in
  let d := [("receiverId", VStr "e1"); ("isFile", VBool true);
            ("fileId", VStr "")] in
  Forall (fun b => exists fs,
            b = Object fs
            /\ ofield "isFile" fs = Some (Val (VBool true))
            /\ ofield "fileId" fs = Some (Val VNull))
    (delivered (sendMessage st 5 6 d))
  /\ delivered (sendMessage st 5 6 d) <> [].
Proof.
  intros st d. split; [|discriminate].
  destruct (relayed_payloads st 5 6 d) as (_ & _ & _ & H).
  eapply Forall_impl; [|exact H].
  intros b (fs & Hb & _ & _ & Hkeep & _ & _ & _ & Hnull & _).
  exists fs. split; [exact Hb|]. split.
  - apply (Hkeep "isFile"); [simpl; tauto | reflexivity].
  - apply Hnull. reflexivity.
Defined.

(** ** Worked scenarios *)

Example string_of_Z_values :
  string_of_Z 0 = "0" /\ string_of_Z 1700 = "1700" /\ string_of_Z (-5) = "-5".
Proof. repeat split. Qed.

Example object_keys_order :
  Object_keys [("b", "s1"); ("10", "s2"); ("2", "s3"); ("01", "s4");
               ("a", "s5")]
  = ["2"; "10"; "b"; "01"; "a"].
Proof. reflexivity. Qed.

Example sort_join_values :
  roomId (VStr "b") (VStr "a") = "a-b"
  /\ roomId VUndefined (VStr "a") = "a-"
  /\ roomId (VNum 10) (VNum 9) = "10-9".
Proof. repeat split. Qed.

(** User "u1" on connection A, expert "e1" on connection B: a message of
    A for "e1" reaches B and only B. *)
Example user_to_expert_scenario :
  let st := run initial [Connection "sockA" (mkQuery (Some "u1") None);
                         Connection "sockB" (mkQuery None (Some "e1"))] in
  targets (sendMessage st 1700 1700
             [("receiverId", VStr "e1"); ("text", VStr "hi")])
  = ["sockB"].
Proof. reflexivity. Qed.

(** A reconnection of expert "e1", then the late disconnect of the
    first connection. *)
Example reconnect_scenario :
  let q := mkQuery None (Some "e1") in
  let st := run initial [Connection "sockA" q; Connection "sockB" q;
                         Disconnect "sockA"] in
  getExpertSocketId st "e1" = Obj.Own "sockB"
  /\ snd (disconnect (run initial [Connection "sockA" q; Connection "sockB" q])
            "sockA") = [].
Proof. split; reflexivity. Qed.

(** * More of the relay *)

(** ** Snapshots and registries along a run *)

Lemma In_get_NoDup o k v :
  NoDup (map fst o) -> In (k, v) o -> Obj.own k o = Some v.
Proof.
  induction o as [|[k0 v0] o IH]; simpl; intros Hnd Hin; [contradiction|].
  inversion Hnd as [|? ? Hn Hd]; subst.
  destruct Hin as [E|Hin].
  - injection E as -> ->. now rewrite String.eqb_refl.
  - destruct (String.eqb_spec k0 k) as [->|Hk]; [|now apply IH].
    apply (in_map fst) in Hin. contradiction.
Qed.

Lemma held_value o v :
  NoDup (map fst o) -> In v (Obj.values o) ->
  exists k, Obj.own k o = Some v.
Proof.
  intros Hnd Hin. unfold Obj.values in Hin.
  apply in_map_iff in Hin as [[k v'] [E Hin]]. simpl in E. subst v'.
  exists k. now apply In_get_NoDup.
Qed.

Lemma inv_registry sp st : inv st -> table_ok (registry sp st).
Proof. intros [Hu He]. now destruct sp. Qed.

(** X1: In a state of a run, the snapshot that a broadcast carries lists an
    identity exactly when its lookup gives a handle, and lists no
    identity twice. *)
Theorem snapshot_lists_online (sp : space) (st : state) :
  reachable st ->
  (forall i, In i (Object_keys (registry sp st))
             <-> exists h, lookup sp st i = Obj.Own h)
  /\ NoDup (Object_keys (registry sp st)).
Proof.
  intros Hr. apply reachable_inv in Hr.
  destruct (inv_registry sp st Hr) as (Hk & _). split.
  - intros i. rewrite Object_keys_In. split.
    + intros Hin. apply In_get in Hin as [h Hh]. exists h.
      now apply lookup_own.
    + intros [h Hh]. apply lookup_own, get_Some_In in Hh.
      now apply (in_map fst) in Hh.
  - eapply Permutation_NoDup; [|exact Hk].
    apply Permutation_sym, Object_keys_perm.
Qed.

Lemma snapshot_lists_online_witness :
  let st := run initial [Connection "sockA" (mkQuery (Some "7") None);
                         Connection "sockB" (mkQuery (Some "u1") None);
                         Connection "sockC" (mkQuery (Some "3") None)] in
  Object_keys (registry User st) = ["3"; "7"; "u1"]
  /\ NoDup (Object_keys (registry User st))
  /\ exists h, lookup User st "u1" = Obj.Own h.
Proof.
  intros st.
  assert (Hr : reachable st).
  { exists [Connection "sockA" (mkQuery (Some "7") None);
            Connection "sockB" (mkQuery (Some "u1") None);
            Connection "sockC" (mkQuery (Some "3") None)].
    split; [split|reflexivity].
    - repeat constructor; simpl; intuition discriminate.
    - simpl. intuition discriminate. }
  destruct (snapshot_lists_online User st Hr) as [Hiff Hnd].
  split; [reflexivity|]. split; [exact Hnd|].
  apply Hiff. simpl. tauto.
Defined.

(** X2: In a state of a run, a connection is registered under at most one
    identity of a space, and a registered handle is never empty. *)
Theorem one_identity_per_socket (sp : space) (st : state)
    (i j h : string) :
  reachable st ->
  lookup sp st i = Obj.Own h -> lookup sp st j = Obj.Own h ->
  i = j /\ h <> "".
Proof.
  intros Hr Hi Hj. apply reachable_inv in Hr.
  pose proof (inv_registry sp st Hr) as Hok.
  rewrite lookup_own in Hi, Hj. split.
  - destruct Hok as (_ & _ & Hv & _). exact (held_once _ _ _ _ Hv Hi Hj).
  - exact (held_not_empty _ _ _ Hok Hi).
Qed.

Lemma one_identity_per_socket_witness :
  let st := run initial [Connection "sockA" (mkQuery (Some "u1") None)] in
  "u1" = "u1" /\ "sockA" <> "".
Proof.
  intros st.
  apply (one_identity_per_socket User st "u1" "u1" "sockA");
    [|reflexivity|reflexivity].
  exists [Connection "sockA" (mkQuery (Some "u1") None)].
  split; [split|reflexivity].
  - repeat constructor; simpl; intuition discriminate.
  - simpl. intuition discriminate.
Defined.

(** ** Closed connections *)

Lemma run_app tr1 tr2 : forall st,
  run st (tr1 ++ tr2) = run (run st tr1) tr2.
Proof. induction tr1 as [|ev tr1 IH]; intros st; simpl; auto. Qed.

Lemma connections_app tr1 tr2 :
  connections (tr1 ++ tr2) = connections tr1 ++ connections tr2.
Proof.
  induction tr1 as [|ev tr1 IH]; simpl; [reflexivity|].
  destruct ev; simpl; now rewrite ?IH.
Qed.

(** A run adds no socket id to the registries but those of its
    connections. *)
Lemma run_values tr : forall st x,
  In x (Obj.values (userSocketMap (run st tr)))
  \/ In x (Obj.values (expertSocketMap (run st tr))) ->
  In x (connections tr)
  \/ In x (Obj.values (userSocketMap st))
  \/ In x (Obj.values (expertSocketMap st)).
Proof.
  induction tr as [|ev tr IH]; intros st x H; [simpl in *; tauto|].
  rewrite connections_cons. simpl run in H.
  apply IH in H as [H|H]; [left; apply in_or_app; now right|].
  apply step_values in H as [H|H]; [|tauto].
  left. apply in_or_app. now left.
Qed.

(** After the disconnect of a socket, no registry holds its id. *)
Lemma disconnect_clears sp st s :
  inv st -> ~ In s (Obj.values (registry sp (fst (disconnect st s)))).
Proof.
  intros Hinv Hin. pose proof (inv_registry sp st Hinv) as Hok.
  pose proof (inv_registry sp _ (disconnect_inv st s Hinv)) as Hok'.
  destruct Hok' as (Hk' & _).
  apply (held_value _ _ Hk') in Hin as [k Hk].
  rewrite disconnect_registry in Hk.
  destruct (found (Obj.find_key s (registry sp st))) as [k0|] eqn:E.
  - apply found_Some in E as [E _]. apply find_key_Some in E.
    destruct (String.eqb_spec k0 k) as [->|Hne].
    + now rewrite get_delete_same in Hk.
    + rewrite get_delete_other in Hk by exact Hne.
      destruct Hok as (_ & _ & Hv & _).
      now apply Hne, (held_once _ _ _ _ Hv E Hk).
  - assert (Hs : lookup sp st k = Obj.Own s) by now apply lookup_own.
    pose proof (disconnect_finds sp st s k Hinv Hs) as Hf. congruence.
Qed.

(** The connection that an event of the direct channel is sent to is
    held by a registry under the receiver of the event. *)
Lemma receiver_is_held st r x :
  online (receiverSocketId st r) = Some (Room x) ->
  lookup User st (ToString r) = Obj.Own x
  \/ lookup Expert st (ToString r) = Obj.Own x.
Proof.
  unfold receiverSocketId, or_else. simpl lookup.
  fold (getReceiverSocketId st (ToString r)).
  fold (getExpertSocketId st (ToString r)).
  assert (Hb : online (getExpertSocketId st (ToString r)) = Some (Room x) ->
               getExpertSocketId st (ToString r) = Obj.Own x).
  { destruct (getExpertSocketId st (ToString r)) as [h'|k'|]; simpl;
      try discriminate.
    destruct (String.eqb h' ""); [discriminate|].
    intros E. injection E as <-. reflexivity. }
  destruct (getReceiverSocketId st (ToString r)) as [h|k|]; simpl.
  - destruct (String.eqb_spec h ""); simpl; [now right; apply Hb|].
    destruct (String.eqb_spec h ""); [contradiction|].
    intros E. injection E as <-. now left.
  - discriminate.
  - intros E. right. now apply Hb.
Qed.

(** X3: once a connection has disconnected, no lookup gives its socket
    id again and no event of the direct channel is sent to it, whatever
    happens later in the run. *)
Theorem closed_connection_is_forgotten (tr1 tr2 : list event) (s : string) :
  transport_ids (tr1 ++ Disconnect s :: tr2) ->
  ~ In s (connections tr2) ->
  let st := run initial (tr1 ++ Disconnect s :: tr2) in
  (forall sp i, lookup sp st i <> Obj.Own s)
  /\ (forall t1 t2 d,
        ~ In s (targets (sendMessage st t1 t2 d))
        /\ ~ In s (targets (messageEdited st d))
        /\ ~ In s (targets (messageDeleted st d))
        /\ ~ In s (targets (allMessagesDeleted st d))).
Proof.
  intros [Hnd Hne] Hlater st.
  assert (Hc : connections (tr1 ++ Disconnect s :: tr2)
               = connections tr1 ++ connections tr2)
    by now rewrite connections_app.
  rewrite Hc in Hnd, Hne.
  assert (Hinv1 : inv (run initial tr1)).
  { apply reachable_inv. exists tr1. split; [split|reflexivity].
    - now apply NoDup_app_remove_r in Hnd.
    - intros H. apply Hne, in_or_app. now left. }
  assert (Hgone : forall sp i, lookup sp st i <> Obj.Own s).
  { intros sp i Hi. unfold st in Hi. rewrite run_app in Hi. simpl in Hi.
    apply lookup_own, get_Some_In in Hi.
    apply (in_map snd) in Hi. simpl in Hi.
    assert (H : In s (connections tr2)
                \/ In s (Obj.values (userSocketMap
                           (fst (disconnect (run initial tr1) s))))
                \/ In s (Obj.values (expertSocketMap
                           (fst (disconnect (run initial tr1) s))))).
    { apply run_values. destruct sp; [left|right]; exact Hi. }
    destruct H as [H|[H|H]]; [contradiction | |].
    - exact (disconnect_clears User _ s Hinv1 H).
    - exact (disconnect_clears Expert _ s Hinv1 H). }
  split; [exact Hgone|].
  intros t1 t2 d.
  unfold sendMessage, messageEdited, messageDeleted, allMessagesDeleted.
  destruct (online (receiverSocketId st (field "receiverId" d)))
    as [[x|k]|] eqn:E; simpl; [|tauto ..].
  assert (x <> s) as Hx.
  { intros ->. apply receiver_is_held in E as [E|E];
      now apply Hgone in E. }
  intuition congruence.
Qed.

Lemma closed_connection_is_forgotten_witness :
  let q := mkQuery (Some "u1") None in
  let st := run initial ([Connection "sockA" q] ++ Disconnect "sockA"
                           :: [Connection "sockB" q]) in
  lookup User st "u1" <> Obj.Own "sockA"
  /\ ~ In "sockA" (targets (sendMessage st 1 2 [("receiverId", VStr "u1")])).
Proof.
  intros q st.
  destruct (closed_connection_is_forgotten [Connection "sockA" q]
              [Connection "sockB" q] "sockA") as [Hgone Hsend].
  - split.
    + repeat constructor; simpl; intuition discriminate.
    + simpl. intuition discriminate.
  - simpl. intuition discriminate.
  - split; [apply Hgone | apply Hsend].
Defined.

(** X4: a connection followed by its own disconnect leaves every
    identity it did not claim as it was, and leaves an identity it
    claimed (other than "__proto__", which it never registers) out of
    the registry: the lookup gives no socket id but what every plain
    object inherits under that name, and a connection that held the
    identity before is not restored. *)
Theorem connect_then_disconnect (st : state) (s : string) (q : query) :
  reachable st -> s <> "" ->
  (forall sp k, lookup sp st k <> Obj.Own s) ->
  let st1 := fst (connection st s q) in
  let st2 := fst (disconnect st1 s) in
  (forall sp i,
     claim_of sp q = Some i -> i <> "" -> i <> "undefined" ->
     i <> "__proto__" ->
     lookup sp st1 i = Obj.Own s
     /\ lookup sp st2 i = Obj.proto i
     /\ (forall h, lookup sp st2 i <> Obj.Own h)
     /\ ~ In i (Object_keys (registry sp st2)))
  /\ (forall sp k,
        claim_of sp q <> Some k -> lookup sp st2 k = lookup sp st k).
Proof.
  intros Hr Hs Hfresh st1 st2. apply reachable_inv in Hr.
  assert (Hnew : forall sp, ~ In s (Obj.values (registry sp st))).
  { intros sp Hin. destruct (inv_registry sp st Hr) as (Hk & _).
    apply (held_value _ _ Hk) in Hin as [k Hk'].
    apply (Hfresh sp k). now apply lookup_own. }
  assert (Hinv1 : inv st1).
  { apply connection_inv; [exact Hr | exact Hs | |].
    - apply (Hnew User).
    - apply (Hnew Expert). }
  assert (Hsame : forall sp, registry sp st1 = registry sp st ->
                  registry sp st2 = registry sp st).
  { intros sp E. unfold st2. rewrite disconnect_registry, E.
    rewrite disconnect_table_stale; [reflexivity|].
    intros k Hk. apply (Hfresh sp k). now apply lookup_own. }
  assert (Hput : forall sp i,
            registry sp st1 = Obj.put i s (registry sp st) ->
            lookup sp st1 i = Obj.Own s
            /\ registry sp st2 = Obj.delete i (Obj.put i s (registry sp st))).
  { intros sp i E.
    assert (Hl : lookup sp st1 i = Obj.Own s)
      by (apply lookup_own; rewrite E; apply get_set_same).
    split; [exact Hl|]. unfold st2.
    now rewrite disconnect_registry, (disconnect_finds sp st1 s i Hinv1 Hl), E. }
  pose proof (fun sp => connection_registry sp st s q) as Hreg.
  fold st1 in Hreg.
  split.
  - intros sp i Hc Hi Hu Hp. specialize (Hreg sp).
    assert (Ec : claimed (claim_of sp q) = Some i) by now apply claimed_Some.
    rewrite Ec, set_put in Hreg by exact Hp.
    destruct (Hput sp i Hreg) as [Hl Hreg2].
    assert (Hown : Obj.own i (registry sp st2) = None)
      by (rewrite Hreg2; apply get_delete_same).
    assert (Hget : lookup sp st2 i = Obj.proto i)
      by (rewrite lookup_registry; now apply get_not_own).
    split; [exact Hl|]. split; [exact Hget|]. split.
    + intros h Hh. apply lookup_own in Hh. congruence.
    + rewrite Object_keys_In. now apply get_None_notin.
  - intros sp k Hk. specialize (Hreg sp). rewrite !lookup_registry.
    destruct (claimed (claim_of sp q)) as [i|] eqn:Ec.
    + destruct (set_cases (registry sp st) i s) as [E|E]; rewrite E in Hreg.
      * now rewrite (Hsame sp Hreg).
      * destruct (Hput sp i Hreg) as [_ Hreg2]. rewrite Hreg2.
        apply claimed_Some in Ec as (Ec & _).
        assert (i <> k) by congruence.
        unfold Obj.get.
        rewrite get_delete_other, get_set_other by assumption. reflexivity.
    + now rewrite (Hsame sp Hreg).
Qed.

Lemma connect_then_disconnect_witness :
  let q := mkQuery (Some "u1") None in
  let st := run initial [Connection "sockA" q] in
  let st2 := fst (disconnect (fst (connection st "sockB" q)) "sockB") in
  lookup User st "u1" = Obj.Own "sockA"
  /\ lookup User st2 "u1" = Obj.proto "u1".
Proof.
  intros q st st2. split; [reflexivity|].
  assert (Hr : reachable st).
  { exists [Connection "sockA" q]. split; [split|reflexivity].
    - repeat constructor; simpl; intuition discriminate.
    - simpl. intuition discriminate. }
  assert (Hfresh : forall sp k, lookup sp st k <> Obj.Own "sockB").
  { intros sp k Hk. apply lookup_own in Hk. destruct sp.
    - assert (Hk' : (if String.eqb "u1" k then Some "sockA" else @None string)
                    = Some "sockB") by exact Hk.
      destruct (String.eqb "u1" k); discriminate.
    - discriminate. }
  destruct (connect_then_disconnect st "sockB" q Hr) as [Hoff _];
    [discriminate | exact Hfresh |].
  apply (Hoff User "u1");
    [reflexivity | discriminate | discriminate | discriminate].
Defined.

(** ** Events without a receiver *)

Lemma step_no_placeholder st ev :
  no_placeholder st -> no_placeholder (fst (step st ev)).
Proof.
  intros [Hu He]. destruct ev; try (split; assumption).
  - change (no_placeholder (fst (connection st socket_id q))).
    unfold no_placeholder. rewrite connection_users, connection_experts.
    split.
    + destruct (claimed (q_userId q)) as [u|] eqn:Eu; [|exact Hu].
      apply claimed_Some in Eu as (_ & _ & Hn).
      intros H. apply set_keys in H as [E|H]; [congruence | contradiction].
    + destruct (claimed (q_expertId q)) as [e|] eqn:Ee; [|exact He].
      apply claimed_Some in Ee as (_ & _ & Hn).
      intros H. apply set_keys in H as [E|H]; [congruence | contradiction].
  - change (no_placeholder (fst (disconnect st socket_id))).
    unfold no_placeholder. rewrite disconnect_users, disconnect_experts.
    split.
    + destruct (found (Obj.find_key socket_id (userSocketMap st)));
        [rewrite keys_delete; tauto | exact Hu].
    + destruct (found (Obj.find_key socket_id (expertSocketMap st)));
        [rewrite keys_delete; tauto | exact He].
Qed.

Lemma run_no_placeholder tr : forall st,
  no_placeholder st -> no_placeholder (run st tr).
Proof.
  induction tr as [|ev tr IH]; intros st H; [exact H|].
  simpl. now apply IH, step_no_placeholder.
Qed.

(** X5: in a state of a run, an event of the direct channel whose
    [receiverId] is missing, empty or the string "undefined" is sent to
    nobody: the handshake never registers the keys it would be looked
    up under. *)
Theorem missing_receiver_is_dropped (st : state) (d : payload)
    (t1 t2 : Z) :
  reachable st ->
  field "receiverId" d = VUndefined
  \/ field "receiverId" d = VStr "undefined"
  \/ field "receiverId" d = VStr "" ->
  sendMessage st t1 t2 d = []
  /\ messageEdited st d = []
  /\ messageDeleted st d = []
  /\ allMessagesDeleted st d = [].
Proof.
  intros Hr Hd.
  assert (Hnone : online (receiverSocketId st (field "receiverId" d)) = None).
  { pose proof (reachable_inv st Hr) as [Hu He].
    destruct Hr as (tr & _ & ->).
    destruct (run_no_placeholder tr initial) as [Hpu Hpe];
      [split; simpl; tauto|].
    unfold receiverSocketId.
    assert (Hkey : ToString (field "receiverId" d) = "undefined"
                   \/ ToString (field "receiverId" d) = "").
    { destruct Hd as [-> | [-> | ->]]; simpl; auto. }
    destruct Hu as (_ & Hue & _), He as (_ & Hee & _).
    destruct Hkey as [-> | ->]; unfold Obj.get;
      rewrite !get_notin by assumption; reflexivity. }
  unfold sendMessage, messageEdited, messageDeleted, allMessagesDeleted.
  now rewrite Hnone.
Qed.

Lemma missing_receiver_is_dropped_witness :
  let st := run initial
              [Connection "sockA" (mkQuery (Some "undefined") (Some "e1"))] in
  sendMessage st 1 2 [("text", VStr "hi")] = []
  /\ messageEdited st [("text", VStr "hi")] = []
  /\ messageDeleted st [("text", VStr "hi")] = []
  /\ allMessagesDeleted st [("text", VStr "hi")] = [].
Proof.
  intros st.
  apply (missing_receiver_is_dropped st [("text", VStr "hi")] 1 2).
  - exists [Connection "sockA" (mkQuery (Some "undefined") (Some "e1"))].
    split; [split|reflexivity].
    + repeat constructor; simpl; intuition discriminate.
    + simpl. intuition discriminate.
  - left. reflexivity.
Defined.

(** ** Room identifiers of arbitrary values *)

Lemma string_of_Z_not_null n : string_of_Z n <> "null".
Proof.
  unfold string_of_Z, NilZero.string_of_int.
  destruct (Z.to_int n) as [d|d]; [|discriminate].
  destruct d; discriminate.
Qed.

Lemma value_eq_undefined x : x = VUndefined \/ x <> VUndefined.
Proof. destruct x; [now left | right; discriminate ..]. Qed.

Lemma sort_lt_defined x y :
  x <> VUndefined -> y <> VUndefined ->
  sort_lt x y = String.ltb (ToString x) (ToString y).
Proof. destruct x, y; try congruence; reflexivity. Qed.

Lemma roomId_pair x y :
  roomId x y
  = if sort_lt y x then (join_elt y ++ "-" ++ join_elt x)%string
    else (join_elt x ++ "-" ++ join_elt y)%string.
Proof. unfold roomId. simpl sort. now destruct (sort_lt y x). Qed.

Lemma join_elt_defined x :
  x <> VUndefined -> x <> VNull -> join_elt x = ToString x.
Proof. destruct x; try congruence; reflexivity. Qed.

(** X6: on primitive values of any type, [[x, y].sort().join("-")]
    gives the same room for both orders of the pair, except for [null]
    paired with the string "null", where the two orders give "-null"
    and "null-". *)
Theorem room_key_of_values :
  (forall x y : value,
     ~ (x = VNull /\ y = VStr "null") ->
     ~ (x = VStr "null" /\ y = VNull) ->
     roomId x y = roomId y x)
  /\ roomId VNull (VStr "null") = "-null"
  /\ roomId (VStr "null") VNull = "null-".
Proof.
  split; [|split; reflexivity].
  intros x y H1 H2. rewrite !roomId_pair.
  destruct (value_eq_undefined x) as [->|Hx].
  - destruct y; reflexivity.
  - destruct (value_eq_undefined y) as [->|Hy]; [destruct x; reflexivity|].
    rewrite !sort_lt_defined by assumption. unfold String.ltb.
    rewrite (String.compare_antisym (ToString x) (ToString y)).
    destruct (String.compare (ToString y) (ToString x)) eqn:E; simpl;
      try reflexivity.
    apply String.compare_eq_iff in E.
    assert (join_elt x = join_elt y) as ->; [|reflexivity].
    destruct x, y; try congruence; simpl in *;
      try reflexivity; try (symmetry; exact E);
      try (destruct b; discriminate);
      try (exfalso; now apply (string_of_Z_not_null n));
      try (exfalso; symmetry in E; now apply (string_of_Z_not_null n)).
    + exfalso. apply H1. split; congruence.
    + exfalso. apply H2. split; congruence.
Qed.

Lemma room_key_of_values_witness :
  roomId (VNum 10) (VStr "9") = roomId (VStr "9") (VNum 10).
Proof.
  destruct room_key_of_values as [Hsym _].
  apply Hsym; intros [H _]; discriminate.
Defined.

(** * The earlier relay *)

Lemma legacy_claimed x :
  x <> Some "undefined" -> Legacy.claimed x = claimed x.
Proof.
  unfold Legacy.claimed, claimed. destruct x as [s|]; [|reflexivity].
  intros Hn. destruct (String.eqb_spec s ""); [reflexivity|]. simpl.
  destruct (String.eqb_spec s "undefined"); [congruence | reflexivity].
Qed.

(** X7: the earlier handshake has no placeholder test: a connection
    whose [userId] is the string "undefined" is registered under that
    key, and an event of the direct channel without [receiverId] is then
    sent to it; the handshake of [lib/socket.js] leaves the user registry
    as it was. *)
Theorem legacy_registers_placeholder (st : state) (s : string)
    (e : option string) (d : payload) (t1 t2 : Z) :
  s <> "" ->
  field "receiverId" d = VUndefined ->
  let q := mkQuery (Some "undefined") e in
  let st' := fst (Legacy.connection st s q) in
  lookup User st' "undefined" = Obj.Own s
  /\ targets (sendMessage st' t1 t2 d) = [s]
  /\ targets (messageEdited st' d) = [s]
  /\ registry User (fst (connection st s q)) = registry User st.
Proof.
  intros Hs Hd q st'.
  assert (Hl : Obj.own "undefined" (userSocketMap st') = Some s).
  { unfold st', Legacy.connection. simpl.
    destruct (Legacy.claimed e); simpl;
      (rewrite set_put by discriminate); apply get_set_same. }
  assert (Hg : Obj.get "undefined" (userSocketMap st') = Obj.Own s)
    by now apply get_own.
  assert (Hon : online (receiverSocketId st' (field "receiverId" d))
                = Some (Room s)).
  { rewrite Hd. unfold receiverSocketId. simpl ToString. rewrite Hg.
    unfold or_else, online. simpl.
    destruct (String.eqb_spec s ""); [contradiction|]. simpl.
    destruct (String.eqb_spec s ""); [contradiction | reflexivity]. }
  split; [exact Hg|].
  unfold sendMessage, messageEdited. rewrite Hon.
  repeat split. simpl. now rewrite connection_users.
Qed.

Lemma legacy_registers_placeholder_witness :
  let q := mkQuery (Some "undefined") None in
  let st' := fst (Legacy.connection initial "sockA" q) in
  lookup User st' "undefined" = Obj.Own "sockA"
  /\ targets (sendMessage st' 1 2 [("text", VStr "hi")]) = ["sockA"].
Proof.
  intros q st'.
  destruct (legacy_registers_placeholder initial "sockA" None
              [("text", VStr "hi")] 1 2) as (Hl & Ht & _);
    [discriminate | reflexivity |].
  split; [exact Hl | exact Ht].
Defined.

(** X8: on a handshake in which neither claim is the string "undefined"
    the earlier connection handler and that of [lib/socket.js] register
    and broadcast the same. *)
Theorem legacy_handshake_agrees (st : state) (s : string) (q : query) :
  q_userId q <> Some "undefined" ->
  q_expertId q <> Some "undefined" ->
  Legacy.connection st s q = connection st s q.
Proof.
  intros Hu He. unfold Legacy.connection, connection.
  now rewrite !legacy_claimed by assumption.
Qed.

Lemma legacy_handshake_agrees_witness :
  Legacy.connection initial "sockA" (mkQuery (Some "u1") (Some ""))
  = connection initial "sockA" (mkQuery (Some "u1") (Some "")).
Proof.
  apply legacy_handshake_agrees; discriminate.
Defined.



(** X10: the earlier [allExpertMessagesDeleted] looks the receiver up
    under [receiverId] and forwards [senderID] and [receiverID]: an
    event that names the pair by [senderID] and [receiverID] only, which
    the relay of [lib/socket.js] sends to the room of the pair, is sent
    to nobody unless an expert is registered under "undefined". *)
Theorem legacy_all_deleted_lookup (st : state) (a b : string)
    (d : payload) :
  field "senderID" d = VStr a ->
  field "receiverID" d = VStr b ->
  field "receiverId" d = VUndefined ->
  (getExpertSocketId st "undefined" = Obj.Absent ->
   Legacy.allExpertMessagesDeleted st d = [])
  /\ targets (allExpertMessagesDeleted d) = [roomId (VStr a) (VStr b)]
  /\ (forall x, In x (targets (Legacy.allExpertMessagesDeleted st d)) ->
                getExpertSocketId st "undefined" = Obj.Own x).
Proof.
  intros Ha Hb Hr. unfold Legacy.allExpertMessagesDeleted,
    Legacy.expertReceiver, allExpertMessagesDeleted.
  rewrite Ha, Hb, Hr. simpl ToString.
  fold (getExpertSocketId st "undefined"). split; [|split].
  - intros ->. reflexivity.
  - reflexivity.
  - intros x Hx.
    destruct (getExpertSocketId st "undefined") as [h|k|];
      simpl in Hx; [|contradiction ..].
    destruct (String.eqb h ""); simpl in Hx; [contradiction|].
    destruct Hx as [->|[]]. reflexivity.
Qed.

Lemma legacy_all_deleted_lookup_witness :
  let st := fst (Legacy.connection initial "sockB"
                   (mkQuery None (Some "e2"))) in
  let d := [("senderID", VStr "e1"); ("receiverID", VStr "e2")] in
  Legacy.allExpertMessagesDeleted st d = []
  /\ targets (allExpertMessagesDeleted d) = ["e1-e2"].
Proof.
  intros st d.
  destruct (legacy_all_deleted_lookup st "e1" "e2" d eq_refl eq_refl eq_refl)
    as (Hdrop & Hroom & _).
  split; [now apply Hdrop | exact Hroom].
Defined.

(** * The direct emits of the HTTP controllers *)

Lemma emit_if_online_None ev fs : Http.emit_if_online Obj.Absent ev fs = [].
Proof. reflexivity. Qed.

Lemma emit_if_online_held st i h ev fs :
  inv st -> getReceiverSocketId st i = Obj.Own h ->
  Http.emit_if_online (getReceiverSocketId st i) ev fs
  = [EmitTo h ev (Object fs)].
Proof.
  intros Hinv Hi. rewrite Hi. unfold Http.emit_if_online.
  now rewrite (online_held st User i h Hinv Hi).
Qed.

(** X11: the HTTP controllers of the direct channel resolve the
    receiver in the user registry only.  For a receiver that is online
    as an expert and for which the user registry gives [undefined],
    [sendMessage], [deleteOneMessage], [deleteAllMessage] and
    [deleteVoiceMessage] emit nothing and [editMessage] emits only the
    copy for its sender, while the [sendMessage] of the relay reaches
    the expert's connection. *)
Theorem http_emits_read_user_registry (st : state) (i h : string)
    (m : list (string * outvalue)) (mid vid : value) (sid a : string)
    (d : payload) (t1 t2 : Z) :
  reachable st ->
  getExpertSocketId st i = Obj.Own h ->
  getReceiverSocketId st i = Obj.Absent ->
  field "receiverId" d = VStr i ->
  Http.sendMessage_emit st i m = []
  /\ Http.deleteOneMessage_emit st i mid sid = []
  /\ Http.deleteVoiceMessage_emit st i mid sid vid = []
  /\ Http.deleteAllMessage_emit st sid i = []
  /\ Http.editMessage_emit st a i m
     = Http.emit_if_online (getReceiverSocketId st a) "messageEdited" m
  /\ (getReceiverSocketId st a = Obj.Absent ->
      Http.editMessage_emit st a i m = [])
  /\ targets (sendMessage st t1 t2 d) = [h].
Proof.
  intros Hr He Hu Hd.
  unfold Http.sendMessage_emit, Http.deleteOneMessage_emit,
    Http.deleteVoiceMessage_emit, Http.deleteAllMessage_emit,
    Http.editMessage_emit.
  rewrite Hu. rewrite !emit_if_online_None, app_nil_r.
  repeat split.
  - intros ->. reflexivity.
  - unfold sendMessage. rewrite Hd.
    rewrite (receiver_resolution st i (reachable_inv st Hr)), Hu, He.
    now rewrite (online_held st Expert i h (reachable_inv st Hr) He).
Qed.

Lemma http_emits_read_user_registry_witness :
  let st := run initial [Connection "sockA" (mkQuery (Some "u1") None);
                         Connection "sockB" (mkQuery None (Some "e1"))] in
  Http.sendMessage_emit st "e1" [("text", Val (VStr "hi"))] = []
  /\ targets (Http.editMessage_emit st "u1" "e1" []) = ["sockA"]
  /\ targets (sendMessage st 1 2 [("receiverId", VStr "e1")]) = ["sockB"].
Proof.
  intros st.
  assert (Hr : reachable st).
  { exists [Connection "sockA" (mkQuery (Some "u1") None);
            Connection "sockB" (mkQuery None (Some "e1"))].
    split; [split|reflexivity].
    - repeat constructor; simpl; intuition discriminate.
    - simpl. intuition discriminate. }
  destruct (http_emits_read_user_registry st "e1" "sockB"
              [("text", Val (VStr "hi"))] VNull VNull "u1" "u1"
              [("receiverId", VStr "e1")] 1 2 Hr eq_refl eq_refl eq_refl)
    as (Hs & _ & _ & _ & _ & _ & Ht).
  destruct (http_emits_read_user_registry st "e1" "sockB"
              [] VNull VNull "u1" "u1"
              [("receiverId", VStr "e1")] 1 2 Hr eq_refl eq_refl eq_refl)
    as (_ & _ & _ & _ & He & _).
  split; [exact Hs|]. split; [rewrite He; reflexivity | exact Ht].
Defined.

(** X12: in a state of a run, [editMessage] emits [messageEdited] once
    for the sender and once for the receiver, each when it is in the
    user registry, in this order; a message whose sender is its
    receiver is emitted twice to the same connection. *)
Theorem edit_message_emits (st : state) (a b : string)
    (m : list (string * outvalue)) :
  reachable st ->
  targets (Http.editMessage_emit st a b m)
  = match getReceiverSocketId st a with Obj.Own h => [h] | _ => [] end
    ++ match getReceiverSocketId st b with Obj.Own h => [h] | _ => [] end
  /\ delivered (Http.editMessage_emit st a b m)
     = map (fun _ => Object m) (targets (Http.editMessage_emit st a b m))
  /\ (forall h, getReceiverSocketId st a = Obj.Own h ->
        targets (Http.editMessage_emit st a a m) = [h; h]).
Proof.
  intros Hr. apply reachable_inv in Hr. unfold Http.editMessage_emit.
  assert (Hone : forall i,
            Http.emit_if_online (getReceiverSocketId st i) "messageEdited" m
            = match getReceiverSocketId st i with
              | Obj.Own h => [EmitTo h "messageEdited" (Object m)]
              | Obj.Inherited k =>
                  [EmitToObject k "messageEdited" (Object m)]
              | Obj.Absent => []
              end).
  { intros i. destruct (getReceiverSocketId st i) as [h|k|] eqn:E;
      [|reflexivity ..].
    rewrite <- E. now apply emit_if_online_held. }
  rewrite !Hone. split; [|split].
  - destruct (getReceiverSocketId st a), (getReceiverSocketId st b);
      reflexivity.
  - destruct (getReceiverSocketId st a), (getReceiverSocketId st b);
      reflexivity.
  - intros h Hh. rewrite Hh. reflexivity.
Qed.

Lemma edit_message_emits_witness :
  let st := run initial [Connection "sockA" (mkQuery (Some "u1") None)] in
  targets (Http.editMessage_emit st "u1" "u1" []) = ["sockA"; "sockA"].
Proof.
  intros st.
  assert (Hr : reachable st).
  { exists [Connection "sockA" (mkQuery (Some "u1") None)].
    split; [split|reflexivity].
    - repeat constructor; simpl; intuition discriminate.
    - simpl. intuition discriminate. }
  destruct (edit_message_emits st "u1" "u1" [] Hr) as (_ & _ & Htwice).
  now apply Htwice.
Defined.

(** X13: the HTTP controllers and the relay name the fields of the same
    events differently: no field name of an [allMessagesDeleted] or
    [messageDeleted] body emitted by a controller is a field name of
    the body the relay emits under that event. *)
Theorem http_and_relay_field_names (st st' : state) (sid rid : string)
    (mid : value) (d : payload) :
  (forall b b' k,
     In b (delivered (Http.deleteAllMessage_emit st sid rid)) ->
     In b' (delivered (allMessagesDeleted st' d)) ->
     In k (field_names b) -> ~ In k (field_names b'))
  /\ (forall b b' k,
        In b (delivered (Http.deleteOneMessage_emit st rid mid sid)) ->
        In b' (delivered (messageDeleted st' d)) ->
        In k (field_names b) -> ~ In k (field_names b')).
Proof.
  unfold Http.deleteAllMessage_emit, Http.deleteOneMessage_emit,
    Http.emit_if_online, allMessagesDeleted, messageDeleted.
  split; intros b b' k Hb Hb' Hk;
    destruct (online (getReceiverSocketId st rid)) as [[x|x]|]; simpl in Hb;
    try contradiction;
    destruct (online (receiverSocketId st' (field "receiverId" d)))
      as [[y|y]|];
    simpl in Hb'; try contradiction;
    destruct Hb as [<-|[]]; destruct Hb' as [<-|[]]; simpl in *;
    intuition (subst; discriminate).
Qed.

Lemma http_and_relay_field_names_witness :
  let st := run initial [Connection "sockA" (mkQuery (Some "u1") None)] in
  map field_names (delivered (Http.deleteAllMessage_emit st "u2" "u1"))
  = [["senderID"; "reciverID"]]
  /\ ~ In "senderID"
       (field_names (Object [("senderId", Val (VStr "u2"));
                             ("receiverId", Val (VStr "u1"))])).
Proof.
  intros st. split; [reflexivity|].
  destruct (http_and_relay_field_names st st "u2" "u1" VNull
              [("senderId", VStr "u2"); ("receiverId", VStr "u1")])
    as [Hall _].
  apply (Hall (Object [("senderID", Val (VStr "u2"));
                       ("reciverID", Val (VStr "u1"))]));
    simpl; tauto.
Defined.

(** X14: the failure test of [deleteFileExpert] holds only for a result
    that has both counters and has them at 0; a result with one of the
    counters missing, as the results of a delete and of an update are,
    never takes the failure branch, whatever the other counter. *)
Theorem deletion_failed_needs_both_counters (r : payload) :
  (Http.deletion_failed r = true <->
   field "deletedCount" r = VNum 0 /\ field "modifiedCount" r = VNum 0)
  /\ (field "modifiedCount" r = VUndefined
      \/ field "deletedCount" r = VUndefined ->
      Http.deletion_failed r = false).
Proof.
  assert (Hz : forall v, Http.strict_eq v (VNum 0) = true <-> v = VNum 0).
  { intros v. destruct v; simpl; split; try discriminate; intros H.
    - apply Z.eqb_eq in H. now subst.
    - injection H as ->. reflexivity. }
  unfold Http.deletion_failed. split.
  - rewrite andb_true_iff, !Hz. tauto.
  - intros [H|H]; rewrite H; simpl; [apply andb_false_r | reflexivity].
Qed.

Lemma deletion_failed_needs_both_counters_witness :
  Http.deletion_failed [("acknowledged", VBool true); ("deletedCount", VNum 0)]
  = false.
Proof.
  apply deletion_failed_needs_both_counters. left. reflexivity.
Defined.

(** * Voice uploads and streaming *)

Lemma prefix_app p : forall m,
  String.prefix p m = true <-> exists rest, m = (p ++ rest)%string.
Proof.
  induction p as [|c p IH]; intros m.
  - split; [intros _; now exists m | intros _; now destruct m].
  - destruct m as [|c' m]; simpl.
    + split; [discriminate | intros [rest H]; discriminate].
    + destruct (ascii_dec c c') as [->|Hne].
      * rewrite IH. split; intros [rest H]; exists rest; congruence.
      * split; [discriminate | intros [rest H]; congruence].
Qed.

(** X15: the filter of voice uploads accepts exactly the MIME types
    that start with "audio/": every listed type has this prefix, so the
    list adds nothing to the prefix test. *)
Theorem voice_filter_is_prefix_test (mimetype : string) :
  Voice.fileFilter mimetype = String.prefix "audio/" mimetype
  /\ (Voice.fileFilter mimetype = true
      <-> exists rest, mimetype = ("audio/" ++ rest)%string).
Proof.
  assert (H : Voice.fileFilter mimetype = String.prefix "audio/" mimetype).
  { unfold Voice.fileFilter.
    destruct (existsb (String.eqb mimetype) Voice.allowedTypes) eqn:E;
      [|reflexivity].
    apply existsb_exists in E as (t & Hin & Heq).
    apply String.eqb_eq in Heq. subst t. unfold Voice.allowedTypes in Hin.
    simpl in Hin.
    repeat (destruct Hin as [<-|Hin]; [reflexivity|]). contradiction. }
  split; [exact H|]. rewrite H. apply prefix_app.
Qed.

Lemma bounds_in_file fileSize parts :
  (1 <= fileSize)%Z ->
  (0 <= fst (Voice.bounds_of_parts fileSize parts)
   <= snd (Voice.bounds_of_parts fileSize parts))%Z
  /\ (snd (Voice.bounds_of_parts fileSize parts) < fileSize)%Z.
Proof.
  intros Hsize. unfold Voice.bounds_of_parts.
  destruct (Voice.parseInt (nth 0 parts "")) as [n|];
    destruct (nth_error parts 1) as [p|];
    try destruct (String.eqb p "");
    try destruct (Voice.parseInt p) as [e|];
    cbn beta iota zeta delta [fst snd];
    repeat match goal with
           | |- context [Z.leb ?a ?b] => destruct (Z.leb_spec a b)
           end; lia.
Qed.

(** X16: for a file that is not empty, whatever the [Range] header
    holds, [streamVoiceMessage] answers 206 with
    [0 <= start <= end < fileSize] and a [Content-Length] of
    [end - start + 1], between 1 and the size of the file. *)
Theorem range_stays_in_file (fileSize : Z) (range : string) :
  (1 <= fileSize)%Z -> range <> "" ->
  exists start end_,
    Voice.range_bounds fileSize range = (start, end_)
    /\ Voice.stream fileSize (Some range)
       = Voice.mkResponse 206 (end_ - start + 1) (Some (start, end_))
    /\ (0 <= start <= end_)%Z /\ (end_ < fileSize)%Z
    /\ (1 <= end_ - start + 1 <= fileSize)%Z.
Proof.
  intros Hsize Hr. unfold Voice.stream.
  destruct (String.eqb_spec range ""); [contradiction|].
  pose proof (bounds_in_file fileSize
                (Voice.split (Voice.remove_bytes range)) Hsize) as Hb.
  fold (Voice.range_bounds fileSize range) in Hb.
  destruct (Voice.range_bounds fileSize range) as [s e]. simpl in Hb.
  exists s, e. repeat split; lia.
Qed.

Lemma range_stays_in_file_witness :
  Voice.stream 1000 (Some "bytes=2000-")
  = Voice.mkResponse 206 1 (Some (999, 999))%Z.
Proof.
  destruct (range_stays_in_file 1000 "bytes=2000-") as (s & e & Hb & Hs & _);
    [lia | discriminate |].
  rewrite Hs. vm_compute in Hb. injection Hb as <- <-. reflexivity.
Defined.

(** X17: for an empty file, every [Range] header is answered 206 with
    the range 0-0 and a [Content-Length] of 1, one byte more than the
    file has. *)
Theorem range_of_empty_file (range : string) :
  range <> "" ->
  Voice.stream 0 (Some range) = Voice.mkResponse 206 1 (Some (0, 0))%Z.
Proof.
  intros Hr. unfold Voice.stream.
  destruct (String.eqb_spec range ""); [contradiction|].
  unfold Voice.range_bounds, Voice.bounds_of_parts.
  set (parts := Voice.split (Voice.remove_bytes range)).
  assert (Hstart : forall x : Z, Z.max 0 (Z.min x (0 - 1)) = 0%Z)
    by (intros; lia).
  destruct (Voice.parseInt (nth 0 parts "")) as [x|]; rewrite Hstart;
    destruct (nth_error parts 1) as [p|];
    try destruct (String.eqb p "");
    try destruct (Voice.parseInt p) as [e|];
    cbn beta iota zeta;
    repeat match goal with
           | |- context [Z.leb ?a ?b] => destruct (Z.leb_spec a b)
           end;
    match goal with
    | |- context [Z.max 0 ?y] =>
        replace (Z.max 0 y) with 0%Z by lia; reflexivity
    end.
Qed.

Lemma range_of_empty_file_witness :
  Voice.stream 0 (Some "bytes=0-")
  = Voice.mkResponse 206 1 (Some (0, 0))%Z.
Proof.
  apply range_of_empty_file. discriminate.
Defined.

Lemma substring_all s : String.substring 0 (String.length s) s = s.
Proof. induction s as [|c s IH]; simpl; [reflexivity | now rewrite IH]. Qed.

Lemma remove_bytes_head rest :
  Voice.remove_bytes ("bytes=" ++ rest) = rest.
Proof.
  destruct rest as [|c rest]; [reflexivity|].
  simpl. f_equal. apply substring_all.
Qed.

Lemma split_nonempty s : Voice.split s <> [].
Proof.
  destruct s as [|c s]; simpl; [discriminate|].
  destruct (Ascii.eqb c "-"); [discriminate|].
  destruct (Voice.split s); discriminate.
Qed.

Lemma split_single_app a : forall b,
  Voice.split a = [a] ->
  Voice.split (a ++ String "-" b) = a :: Voice.split b.
Proof.
  induction a as [|c a IH]; intros b Ha; simpl in *; [reflexivity|].
  destruct (Ascii.eqb c "-"); [discriminate|].
  destruct (Voice.split a) as [|p ps] eqn:E;
    [now apply split_nonempty in E|].
  injection Ha as -> ->. now rewrite (IH b eq_refl).
Qed.

(** X18: a suffix range [bytes=-N], which asks for the last [N] bytes,
    is served from the first byte: the range answered is 0 to [N], cut
    at the last byte of the file. *)
Theorem suffix_range_served_from_start (fileSize n : Z) (p : string) :
  (1 <= fileSize)%Z ->
  Voice.split p = [p] -> p <> "" ->
  Voice.parseInt p = Some n ->
  Voice.range_bounds fileSize ("bytes=-" ++ p)
  = (0, Z.max 0 (Z.min n (fileSize - 1)))%Z.
Proof.
  intros Hsize Hp Hne Hn. unfold Voice.range_bounds.
  change ("bytes=-" ++ p)%string with ("bytes=" ++ String "-" p)%string.
  rewrite remove_bytes_head.
  change (Voice.split (String "-" p)) with ("" :: Voice.split p).
  rewrite Hp. unfold Voice.bounds_of_parts. simpl nth. simpl nth_error.
  change (Voice.parseInt "") with (@None Z). cbn beta iota zeta.
  destruct (String.eqb_spec p ""); [contradiction|].
  rewrite Hn. cbn beta iota zeta.
  destruct (Z.leb_spec fileSize n); f_equal; lia.
Qed.

Lemma suffix_range_served_from_start_witness :
  Voice.range_bounds 1000 "bytes=-500" = (0, 500)%Z.
Proof.
  apply (suffix_range_served_from_start 1000 500 "500");
    [lia | reflexivity | discriminate | reflexivity].
Defined.

(** X19: a range whose end lies before its start inside the file is
    not refused: the answer is the single byte at [start]. *)
Theorem reversed_range_is_one_byte (fileSize s0 e0 : Z) (a b : string) :
  Voice.split a = [a] -> Voice.split b = [b] -> b <> "" ->
  Voice.parseInt a = Some s0 -> Voice.parseInt b = Some e0 ->
  (0 <= e0 < s0)%Z -> (s0 < fileSize)%Z ->
  Voice.stream fileSize (Some ("bytes=" ++ a ++ "-" ++ b)%string)
  = Voice.mkResponse 206 1 (Some (s0, s0)).
Proof.
  intros Ha Hb Hne Hs He Hlt Hin. unfold Voice.stream.
  change (String.eqb ("bytes=" ++ a ++ "-" ++ b)%string "") with false.
  cbv iota. unfold Voice.range_bounds. rewrite remove_bytes_head.
  change (a ++ "-" ++ b)%string with (a ++ String "-" b)%string.
  rewrite (split_single_app a b Ha), Hb.
  unfold Voice.bounds_of_parts. simpl nth. simpl nth_error.
  rewrite Hs. cbn beta iota zeta.
  destruct (String.eqb_spec b ""); [contradiction|].
  rewrite He. cbn beta iota zeta.
  destruct (Z.leb_spec fileSize e0); [lia|].
  replace (Z.max 0 (Z.min s0 (fileSize - 1))) with s0 by lia.
  replace (Z.max s0 e0) with s0 by lia.
  replace (s0 - s0 + 1)%Z with 1%Z by lia. reflexivity.
Qed.

Lemma reversed_range_is_one_byte_witness :
  Voice.stream 1000 (Some "bytes=500-100")
  = Voice.mkResponse 206 1 (Some (500, 500))%Z.
Proof.
  apply (reversed_range_is_one_byte 1000 500 100 "500" "100");
    [reflexivity | reflexivity | discriminate | reflexivity | reflexivity
    | lia | lia].
Defined.
